(** * synstyl: deterministic synthesis and tokenization of tabular records

    A shallow embedding of [Main.py] (class [SyntheticDataGenerator]) and
    [tokenizer.py] (class [DataTokenizer]), together with the pieces of the
    Python runtime they rest on: text as sequences of code points, SHA-256,
    the Mersenne Twister behind [random.Random], and binary64 arithmetic. *)

From Stdlib Require Import String Ascii.
From Stdlib Require Import ZArith List Bool Lia Permutation.
From Stdlib Require Import SpecFloat.
Import ListNotations.
Local Open Scope string_scope.
Local Open Scope list_scope.
Local Open Scope Z_scope.

(* ================================================================== *)
(** * Python text *)
(* ================================================================== *)

(** A Python [str] is a sequence of Unicode code points.  The character
    predicates below ([isdigit], [isspace], [lower]) follow CPython on the
    Latin-1 range U+0000..U+00FF and on the surrogates U+D800..U+DFFF, which
    is the range of text this development is exact on. *)
Module Text.

Definition pystr := list Z.

(** A literal of the source, spelled with a Rocq string. *)
Definition u (s : string) : pystr :=
  map (fun a => Z.of_N (N_of_ascii a)) (list_ascii_of_string s).

Definition chr_eqb (a b : Z) : bool := a =? b.

Fixpoint eqb (s t : pystr) : bool :=
  match s, t with
  | [], [] => true
  | a :: s', b :: t' => (a =? b) && eqb s' t'
  | _, _ => false
  end.

(** [len(s)] as a Python integer. *)
Definition len (s : pystr) : Z := Z.of_nat (length s).

(** [ch.isdigit()]. *)
Definition isdigit (c : Z) : bool :=
  ((48 <=? c) && (c <=? 57)) || (c =? 178) || (c =? 179) || (c =? 185).

(** The ten ASCII digits, the alphabet of [str(int)]. *)
Definition is_decimal (c : Z) : bool := (48 <=? c) && (c <=? 57).

(** [ch.isspace()], the characters [str.strip()] removes. *)
Definition isspace (c : Z) : bool :=
  ((9 <=? c) && (c <=? 13)) || ((28 <=? c) && (c <=? 32))
  || (c =? 133) || (c =? 160).

(** [ch.lower()]. *)
Definition lower_chr (c : Z) : Z :=
  if ((65 <=? c) && (c <=? 90))
     || ((192 <=? c) && (c <=? 222) && negb (c =? 215))
  then c + 32 else c.

Definition lower (s : pystr) : pystr := map lower_chr s.

Fixpoint lstrip (s : pystr) : pystr :=
  match s with
  | c :: s' => if isspace c then lstrip s' else s
  | [] => []
  end.

(** [s.strip()]. *)
Definition strip (s : pystr) : pystr := rev (lstrip (rev (lstrip s))).

Fixpoint startswith (p s : pystr) : bool :=
  match p, s with
  | [], _ => true
  | a :: p', b :: s' => (a =? b) && startswith p' s'
  | _ :: _, [] => false
  end.

(** [sub in s]. *)
Fixpoint contains (sub s : pystr) : bool :=
  startswith sub s ||
  match s with
  | [] => false
  | _ :: s' => contains sub s'
  end.

(** [s.replace(a, b)] for single characters [a], [b]. *)
Definition replace_chr (a b : Z) (s : pystr) : pystr :=
  map (fun c => if c =? a then b else c) s.

(** [ch * k]: the empty string when [k <= 0]. *)
Definition times (c : Z) (k : Z) : pystr := repeat c (Z.to_nat k).

(** [s[:k]] and [s[k:]] for an arbitrary Python integer [k]: a negative
    index counts from the end and out-of-range indices are clipped. *)
Definition clip (s : pystr) (k : Z) : nat :=
  Z.to_nat (Z.min (len s) (if k <? 0 then Z.max 0 (len s + k) else k)).

Definition slice_to (s : pystr) (k : Z) : pystr := firstn (clip s k) s.
Definition slice_from (s : pystr) (k : Z) : pystr := skipn (clip s k) s.

(** [s.zfill(width)]: zeros go after a leading sign. *)
Definition zfill (width : Z) (s : pystr) : pystr :=
  let pad := times 48 (width - len s) in
  match s with
  | c :: s' => if (c =? 43) || (c =? 45) then c :: pad ++ s' else pad ++ s
  | [] => pad
  end.

(** Decimal digits of a positive number, least significant first. *)
Fixpoint digits_rev (fuel : nat) (n : Z) : list Z :=
  match fuel with
  | O => []
  | S fuel' => if n <=? 0 then [] else (48 + n mod 10) :: digits_rev fuel' (n / 10)
  end.

(** [str(n)] for a Python integer. *)
Definition of_int (n : Z) : pystr :=
  let a := Z.abs n in
  let ds := rev (digits_rev (S (Z.to_nat (Z.log2 a))) a) in
  let body := match ds with [] => [48] | _ => ds end in
  if n <? 0 then 45 :: body else body.

(** [int(s)] for one decimal digit character. *)
Definition digit_value (c : Z) : option Z :=
  if is_decimal c then Some (c - 48) else None.

(** UTF-8, as [s.encode()] produces it; a surrogate cannot be encoded. *)
Definition utf8_chr (c : Z) : option (list Z) :=
  if c <? 0 then None
  else if c <? 128 then Some [c]
  else if c <? 2048 then Some [192 + c / 64; 128 + c mod 64]
  else if (55296 <=? c) && (c <=? 57343) then None
  else if c <? 65536 then
    Some [224 + c / 4096; 128 + (c / 64) mod 64; 128 + c mod 64]
  else if c <? 1114112 then
    Some [240 + c / 262144; 128 + (c / 4096) mod 64;
          128 + (c / 64) mod 64; 128 + c mod 64]
  else None.

Fixpoint encode (s : pystr) : option (list Z) :=
  match s with
  | [] => Some []
  | c :: s' =>
      match utf8_chr c, encode s' with
      | Some b, Some bs => Some (b ++ bs)
      | _, _ => None
      end
  end.

End Text.

Import Text.

(* ================================================================== *)
(** * SHA-256 ([hashlib.sha256]) *)
(* ================================================================== *)

Module Sha256.

Definition w32 (x : Z) : Z := x mod 4294967296.
Definition add32 (x y : Z) : Z := w32 (x + y).
Definition rotr (n x : Z) : Z := Z.lor (Z.shiftr x n) (w32 (Z.shiftl x (32 - n))).
Definition not32 (x : Z) : Z := 4294967295 - x.

Definition ch (x y z : Z) : Z := Z.lxor (Z.land x y) (Z.land (not32 x) z).
Definition maj (x y z : Z) : Z :=
  Z.lxor (Z.lxor (Z.land x y) (Z.land x z)) (Z.land y z).
Definition bsig0 (x : Z) : Z := Z.lxor (Z.lxor (rotr 2 x) (rotr 13 x)) (rotr 22 x).
Definition bsig1 (x : Z) : Z := Z.lxor (Z.lxor (rotr 6 x) (rotr 11 x)) (rotr 25 x).
Definition ssig0 (x : Z) : Z := Z.lxor (Z.lxor (rotr 7 x) (rotr 18 x)) (Z.shiftr x 3).
Definition ssig1 (x : Z) : Z := Z.lxor (Z.lxor (rotr 17 x) (rotr 19 x)) (Z.shiftr x 10).

(** Round constants: fractional parts of the cube roots of the first 64 primes. *)
Definition round_constants : list Z :=
  [1116352408; 1899447441; 3049323471; 3921009573; 961987163; 1508970993;
   2453635748; 2870763221; 3624381080; 310598401; 607225278; 1426881987;
   1925078388; 2162078206; 2614888103; 3248222580; 3835390401; 4022224774;
   264347078; 604807628; 770255983; 1249150122; 1555081692; 1996064986;
   2554220882; 2821834349; 2952996808; 3210313671; 3336571891; 3584528711;
   113926993; 338241895; 666307205; 773529912; 1294757372; 1396182291;
   1695183700; 1986661051; 2177026350; 2456956037; 2730485921; 2820302411;
   3259730800; 3345764771; 3516065817; 3600352804; 4094571909; 275423344;
   430227734; 506948616; 659060556; 883997877; 958139571; 1322822218;
   1537002063; 1747873779; 1955562222; 2024104815; 2227730452; 2361852424;
   2428436474; 2756734187; 3204031479; 3329325298].

Definition initial_hash : list Z :=
  [1779033703; 3144134277; 1013904242; 2773480762;
   1359893119; 2600822924; 528734635; 1541459225].

(** Padding: a one bit, zeros up to 56 mod 64, the bit length on 8 bytes. *)
Definition be_bytes (k : nat) (x : Z) : list Z :=
  map (fun i => (x / 256 ^ Z.of_nat i) mod 256) (rev (seq 0 k)).

Definition pad (msg : list Z) : list Z :=
  let l := Z.of_nat (length msg) in
  let zeros := Z.to_nat ((55 - l) mod 64) in
  msg ++ [128] ++ repeat 0 zeros ++ be_bytes 8 (8 * l).

Fixpoint words (fuel : nat) (bs : list Z) : list Z :=
  match fuel, bs with
  | S fuel', a :: b :: c :: d :: bs' =>
      (((a * 256 + b) * 256 + c) * 256 + d) :: words fuel' bs'
  | _, _ => []
  end.

(** The message schedule, most recent word first. *)
Fixpoint schedule (k : nat) (ws : list Z) : list Z :=
  match k with
  | O => ws
  | S k' =>
      let w := add32 (add32 (ssig1 (nth 1 ws 0)) (nth 6 ws 0))
                     (add32 (ssig0 (nth 14 ws 0)) (nth 15 ws 0)) in
      schedule k' (w :: ws)
  end.

Record regs := Regs { ra : Z; rb : Z; rc : Z; rd : Z; re : Z; rf : Z; rg : Z; rh : Z }.

Definition round (s : regs) (kw : Z * Z) : regs :=
  let '(k, w) := kw in
  let t1 := add32 (add32 (add32 (rh s) (bsig1 (re s))) (add32 (ch (re s) (rf s) (rg s)) k)) w in
  let t2 := add32 (bsig0 (ra s)) (maj (ra s) (rb s) (rc s)) in
  Regs (add32 t1 t2) (ra s) (rb s) (rc s) (add32 (rd s) t1) (re s) (rf s) (rg s).

Definition regs_of (h : list Z) : regs :=
  Regs (nth 0 h 0) (nth 1 h 0) (nth 2 h 0) (nth 3 h 0)
       (nth 4 h 0) (nth 5 h 0) (nth 6 h 0) (nth 7 h 0).

Definition compress (h : list Z) (block : list Z) : list Z :=
  let ws := rev (schedule 48 (rev (words 16 block))) in
  let s0 := regs_of h in
  let s := fold_left round (combine round_constants ws) s0 in
  [add32 (ra s0) (ra s); add32 (rb s0) (rb s); add32 (rc s0) (rc s);
   add32 (rd s0) (rd s); add32 (re s0) (re s); add32 (rf s0) (rf s);
   add32 (rg s0) (rg s); add32 (rh s0) (rh s)].

Fixpoint blocks (fuel : nat) (h : list Z) (bs : list Z) : list Z :=
  match fuel, bs with
  | S fuel', _ :: _ => blocks fuel' (compress h (firstn 64 bs)) (skipn 64 bs)
  | _, _ => h
  end.

(** The digest, as its 32 bytes. *)
Definition digest (msg : list Z) : list Z :=
  let p := pad msg in
  flat_map (be_bytes 4) (blocks (length p) initial_hash p).

Definition hex_chr (d : Z) : Z := if d <? 10 then 48 + d else 87 + d.

(** [hashlib.sha256(msg).hexdigest()]. *)
Definition hexdigest (msg : list Z) : pystr :=
  flat_map (fun b => [hex_chr (b / 16); hex_chr (b mod 16)]) (digest msg).

End Sha256.

(** [int(s, 16)] on lower-case hexadecimal text. *)
Definition hex_value (c : Z) : option Z :=
  if (48 <=? c) && (c <=? 57) then Some (c - 48)
  else if (97 <=? c) && (c <=? 102) then Some (c - 87)
  else if (65 <=? c) && (c <=? 70) then Some (c - 55)
  else None.

Fixpoint int16_from (acc : Z) (s : pystr) : option Z :=
  match s with
  | [] => Some acc
  | c :: s' =>
      match hex_value c with
      | Some d => int16_from (acc * 16 + d) s'
      | None => None
      end
  end.

Definition int16 (s : pystr) : option Z :=
  match s with
  | [] => None
  | _ => int16_from 0 s
  end.

(* ================================================================== *)
(** * Exceptions *)
(* ================================================================== *)

(** The Python exceptions the two modules can meet. *)
Inductive exn : Type :=
| ValueError | TypeError | KeyError | IndexError | ZeroDivisionError
| AttributeError | OverflowError | UnicodeEncodeError.

(** What a call does: it returns, it raises, or (for the rejection loop of
    [random], whose length no bound of this development covers) it is
    still looping when the model's fuel is spent. *)
Inductive outcome (A : Type) : Type :=
| Ok (a : A)
| Raise (e : exn)
| Diverge.
Arguments Ok {A} a.
Arguments Raise {A} e.
Arguments Diverge {A}.

Definition bind {A B : Type} (m : outcome A) (k : A -> outcome B) : outcome B :=
  match m with
  | Ok a => k a
  | Raise e => Raise e
  | Diverge => Diverge
  end.

Declare Scope py_scope.
Delimit Scope py_scope with py.
Notation "x <- m ;; k" := (bind m (fun x => k))
  (at level 61, m at next level, right associativity) : py_scope.
Notation "' p <- m ;; k" := (bind m (fun p => k))
  (at level 61, p pattern, m at next level, right associativity) : py_scope.
Local Open Scope py_scope.

(** A loop over a list whose body may raise. *)
Fixpoint for_each {A S : Type} (body : S -> A -> outcome S) (l : list A) (s : S)
  : outcome S :=
  match l with
  | [] => Ok s
  | a :: l' => s' <- body s a ;; for_each body l' s'
  end.

Fixpoint map_outcome {A B : Type} (f : A -> outcome B) (l : list A)
  : outcome (list B) :=
  match l with
  | [] => Ok []
  | a :: l' => b <- f a ;; bs <- map_outcome f l' ;; Ok (b :: bs)
  end.

(* ================================================================== *)
(** * The Mersenne Twister ([random.Random]) *)
(* ================================================================== *)

Module MT.

Definition w32 := Sha256.w32.

Fixpoint upd (i : nat) (v : Z) (l : list Z) : list Z :=
  match l, i with
  | [], _ => []
  | _ :: l', O => v :: l'
  | a :: l', S i' => a :: upd i' v l'
  end.

Definition mix (x : Z) : Z := Z.lxor x (Z.shiftr x 30).

(** [init_genrand]: mt[i] = 1812433253 * (mt[i-1] ^ (mt[i-1] >> 30)) + i. *)
Fixpoint init_from (k : nat) (i : Z) (prev : Z) : list Z :=
  match k with
  | O => []
  | S k' =>
      let x := w32 (1812433253 * mix prev + i) in
      x :: init_from k' (i + 1) x
  end.

Definition init_genrand (s : Z) : list Z := w32 s :: init_from 623 1 (w32 s).

(** One step of either loop of [init_by_array]: the word at [i] is
    recomputed from its left neighbour and the index wraps from 624 to 1. *)
Definition wrap (mt : list Z) (i : nat) : list Z * nat :=
  if (624 <=? i)%nat then (upd 0 (nth 623 mt 0) mt, 1%nat) else (mt, i).

Fixpoint key_loop (k : nat) (key : list Z) (mt : list Z) (i j : nat) : list Z * nat :=
  match k with
  | O => (mt, i)
  | S k' =>
      let x := w32 (Z.lxor (nth i mt 0) (mix (nth (i - 1) mt 0) * 1664525)
                    + nth j key 0 + Z.of_nat j) in
      let '(mt', i') := wrap (upd i x mt) (S i) in
      let j' := if (length key <=? S j)%nat then O else S j in
      key_loop k' key mt' i' j'
  end.

Fixpoint final_loop (k : nat) (mt : list Z) (i : nat) : list Z :=
  match k with
  | O => mt
  | S k' =>
      let x := w32 (Z.lxor (nth i mt 0) (mix (nth (i - 1) mt 0) * 1566083941)
                    - Z.of_nat i) in
      let '(mt', i') := wrap (upd i x mt) (S i) in
      final_loop k' mt' i'
  end.

Definition init_by_array (key : list Z) : list Z :=
  let '(mt, i) := key_loop (Nat.max 624 (length key)) key (init_genrand 19650218) 1 0 in
  upd 0 2147483648 (final_loop 623 mt i).

(** The generator: the 624 words and the position of the next one. *)
Record state := State { words : list Z; pos : nat }.

(** The 32-bit words of a seed, least significant first, at least one. *)
Fixpoint key_of (fuel : nat) (n : Z) : list Z :=
  match fuel with
  | O => []
  | S fuel' =>
      n mod 4294967296 ::
      (if n / 4294967296 =? 0 then [] else key_of fuel' (n / 4294967296))
  end.

(** [random.Random(seed)] for an integer seed. *)
Definition seed (n : Z) : state :=
  let a := Z.abs n in
  State (init_by_array (key_of (S (Z.to_nat (Z.log2 a))) a)) 624.

Fixpoint twist (k : nat) (kk : nat) (mt : list Z) : list Z :=
  match k with
  | O => mt
  | S k' =>
      let y := Z.lor (Z.land (nth kk mt 0) 2147483648)
                     (Z.land (nth ((kk + 1) mod 624) mt 0) 2147483647) in
      let x := Z.lxor (Z.lxor (nth ((kk + 397) mod 624) mt 0) (Z.shiftr y 1))
                      (if Z.odd y then 2567483615 else 0) in
      twist k' (S kk) (upd kk x mt)
  end.

Definition temper (y : Z) : Z :=
  let y := Z.lxor y (Z.shiftr y 11) in
  let y := Z.lxor y (Z.land (w32 (Z.shiftl y 7)) 2636928640) in
  let y := Z.lxor y (Z.land (w32 (Z.shiftl y 15)) 4022730752) in
  Z.lxor y (Z.shiftr y 18).

(** [genrand_uint32]: the result is an unsigned word of 32 bits. *)
Definition next32 (st : state) : Z * state :=
  let st := if (624 <=? pos st)%nat then State (twist 624 0 (words st)) 0 else st in
  (w32 (temper (nth (pos st) (words st) 0)), State (words st) (S (pos st))).

(** [getrandbits(k)]: the top [k] bits of one word when [k <= 32], and
    whole words, least significant first, beyond that. *)
Fixpoint getrandbits_words (nw : nat) (k : Z) (st : state) : Z * state :=
  match nw with
  | O => (0, st)
  | S nw' =>
      let '(r, st1) := next32 st in
      let r := if k <? 32 then Z.shiftr r (32 - k) else r in
      let '(hi, st2) := getrandbits_words nw' (k - 32) st1 in
      (r + 4294967296 * hi, st2)
  end.

Definition getrandbits (k : Z) (st : state) : Z * state :=
  if k <=? 0 then (0, st)
  else getrandbits_words (Z.to_nat ((k - 1) / 32 + 1)) k st.

Definition bit_length (n : Z) : Z := if n =? 0 then 0 else Z.log2 (Z.abs n) + 1.

(** How many draws the model follows the rejection loop for. *)
Definition rejection_fuel : nat := 4096.

Fixpoint randbelow_loop (fuel : nat) (n k : Z) (st : state) : outcome (Z * state) :=
  match fuel with
  | O => Diverge
  | S fuel' =>
      let '(r, st') := getrandbits k st in
      if r <? n then Ok (r, st') else randbelow_loop fuel' n k st'
  end.

(** [_randbelow(n)]: draws of [n.bit_length()] bits until one is below [n]. *)
Definition randbelow (n : Z) (st : state) : outcome (Z * state) :=
  if n =? 0 then Ok (0, st)
  else randbelow_loop rejection_fuel n (bit_length n) st.

(** [randint(a, b)]. *)
Definition randint (a b : Z) (st : state) : outcome (Z * state) :=
  if 0 <? b + 1 - a
  then '(r, st') <- randbelow (b + 1 - a) st ;; Ok (a + r, st')
  else Raise ValueError.

(** [choice(seq)]. *)
Definition choice {A : Type} (l : list A) (st : state) : outcome (A * state) :=
  match l with
  | [] => Raise IndexError
  | _ =>
      '(r, st') <- randbelow (Z.of_nat (length l)) st ;;
      match nth_error l (Z.to_nat r) with
      | Some a => Ok (a, st')
      | None => Raise IndexError
      end
  end.

(** The 53-bit numerator of [random()]: the draw is this over 2^53. *)
Definition random53 (st : state) : Z * state :=
  let '(a, st1) := next32 st in
  let '(b, st2) := next32 st1 in
  (Z.shiftr a 5 * 67108864 + Z.shiftr b 6, st2).

End MT.

(* ================================================================== *)
(** * binary64 ([float]) *)
(* ================================================================== *)

Module F64.

Definition float := spec_float.
Definition prec : Z := 53.
Definition emax : Z := 1024.

Definition nan : float := S754_nan.
Definition mul : float -> float -> float := SFmul prec emax.
Definition add : float -> float -> float := SFadd prec emax.
Definition sub : float -> float -> float := SFsub prec emax.

(** The exact value of a finite number, as mantissa and binary exponent. *)
Definition signed (s : bool) (m : positive) : Z := if s then Z.neg m else Z.pos m.

Definition dy_compare (z1 e1 z2 e2 : Z) : comparison :=
  let e := Z.min e1 e2 in
  (z1 * 2 ^ (e1 - e)) ?= (z2 * 2 ^ (e2 - e)).

(** Comparison by value; nothing compares with a NaN. *)
Definition compare (x y : float) : option comparison :=
  match x, y with
  | S754_nan, _ | _, S754_nan => None
  | S754_infinity s1, S754_infinity s2 =>
      Some (match s1, s2 with true, false => Lt | false, true => Gt | _, _ => Eq end)
  | S754_infinity s, _ => Some (if s then Lt else Gt)
  | _, S754_infinity s => Some (if s then Gt else Lt)
  | S754_zero _, S754_zero _ => Some Eq
  | S754_zero _, S754_finite s _ _ => Some (if s then Gt else Lt)
  | S754_finite s _ _, S754_zero _ => Some (if s then Lt else Gt)
  | S754_finite s1 m1 e1, S754_finite s2 m2 e2 =>
      Some (dy_compare (signed s1 m1) e1 (signed s2 m2) e2)
  end.

(** [x < y], [x <= y] and [x > y]. *)
Definition ltb (x y : float) : bool :=
  match compare x y with Some Lt => true | _ => false end.
Definition leb (x y : float) : bool :=
  match compare x y with Some Lt | Some Eq => true | _ => false end.
Definition gtb (x y : float) : bool := ltb y x.

(** [max(a, b)]: the second argument wins only when it is greater. *)
Definition max (a b : float) : float := if gtb b a then b else a.
(** [min(a, b)]: the second argument wins only when it is smaller. *)
Definition min (a b : float) : float := if ltb b a then b else a.

Definition is_zero (x : float) : bool :=
  match x with S754_zero _ => true | _ => false end.

(** The quotient of [a] by [b > 0], rounded to nearest, ties to even. *)
Definition rhe_div (a b : Z) : Z :=
  let q := a / b in
  match (2 * (a mod b)) ?= b with
  | Lt => q
  | Gt => q + 1
  | Eq => if Z.even q then q else q + 1
  end.

(** [a / (d * 2^e)] as a quotient of integers, for [a, d > 0]. *)
Definition num (a e : Z) : Z := if 0 <=? e then a else a * 2 ^ (- e).
Definition den (d e : Z) : Z := if 0 <=? e then d * 2 ^ e else d.

(** Is [2^k <= a / d] ? *)
Definition ge_pow2 (a d k : Z) : bool := den d k <=? num a k.

(** The floor of the binary logarithm of [a / d], for [a, d > 0]. *)
Definition ilog2_ratio (a d : Z) : Z :=
  let l := Z.log2 a - Z.log2 d in
  if ge_pow2 a d l then l else l - 1.

(** A rounded mantissa [m <= 2^53] at exponent [e], as a number. *)
Definition pack (s : bool) (m e : Z) : float :=
  if m <=? 0 then S754_zero s
  else
    let '(m, e) := if m =? 2 ^ 53 then (2 ^ 52, e + 1) else (m, e) in
    if 971 <? e then S754_infinity s else S754_finite s (Z.to_pos m) e.

(** The mantissa and exponent nearest to [a / d], for [a, d > 0]. *)
Definition nearest (a d : Z) : Z * Z :=
  let e := Z.max (-1074) (ilog2_ratio a d - 52) in
  (rhe_div (num a e) (den d e), e).

(** The number nearest to [n / d] (ties to even), for [d > 0]; [s0] is the
    sign a zero takes. *)
Definition of_ratio (s0 : bool) (n d : Z) : float :=
  if n =? 0 then S754_zero s0
  else let '(m, e) := nearest (Z.abs n) d in pack (n <? 0) m e.

(** [float(n)] for a Python integer. *)
Definition of_int (n : Z) : outcome float :=
  match of_ratio false n 1 with
  | S754_infinity _ => Raise OverflowError
  | f => Ok f
  end.

(** The literals of the source. *)
Definition lit (n d : Z) : float := of_ratio false n d.

(** The multiple of 1/100 nearest to [z * 2^e], ties to even, in hundredths. *)
Definition hundredths (z e : Z) : Z :=
  if 0 <=? e then 100 * z * 2 ^ e else rhe_div (100 * z) (2 ^ (- e)).

(** [round(x, 2)]: the value is rounded to the nearest multiple of 1/100,
    ties to even, and that decimal is read back as a number; zeros, NaN
    and the infinities round to themselves. *)
Definition round2 (x : float) : float :=
  match x with
  | S754_finite s m e => of_ratio s (hundredths (signed s m) e) 100
  | _ => x
  end.

(** [bool(x)]. *)
Definition truthy (x : float) : bool := negb (is_zero x).

End F64.

(** ** Numbers as text: [float(s)] and [repr(x)] *)

Module FloatText.

Import F64.

(** [digit (["_"] digit)*], after its first digit. *)
Fixpoint digitpart_tail (s : pystr) : list Z * pystr :=
  match s with
  | c :: s' =>
      if is_decimal c then
        let '(ds, r) := digitpart_tail s' in (c - 48 :: ds, r)
      else if c =? 95 then
        match s' with
        | c2 :: s'' =>
            if is_decimal c2 then
              let '(ds, r) := digitpart_tail s'' in (c2 - 48 :: ds, r)
            else ([], s)
        | [] => ([], s)
        end
      else ([], s)
  | [] => ([], [])
  end.

Definition digitpart (s : pystr) : option (list Z * pystr) :=
  match s with
  | c :: s' =>
      if is_decimal c then
        let '(ds, r) := digitpart_tail s' in Some (c - 48 :: ds, r)
      else None
  | [] => None
  end.

Definition number_of (ds : list Z) : Z := fold_left (fun acc d => acc * 10 + d) ds 0.

Definition take_sign (s : pystr) : bool * pystr :=
  match s with
  | c :: s' => if c =? 45 then (true, s') else if c =? 43 then (false, s') else (false, s)
  | [] => (false, [])
  end.

(** [number ::= [digitpart] "." digitpart | digitpart ["."]], then the
    digits before and after the point and what follows. *)
Definition number (s : pystr) : option (list Z * list Z * pystr) :=
  match digitpart s with
  | Some (ip, r) =>
      match r with
      | c :: r' =>
          if c =? 46 then
            match digitpart r' with
            | Some (fp, r'') => Some (ip, fp, r'')
            | None => Some (ip, [], r')
            end
          else Some (ip, [], r)
      | [] => Some (ip, [], [])
      end
  | None =>
      match s with
      | c :: r' =>
          if c =? 46 then
            match digitpart r' with
            | Some (fp, r'') => Some ([], fp, r'')
            | None => None
            end
          else None
      | [] => None
      end
  end.

(** [exponent ::= ("e" | "E") [sign] digitpart], when one is there. *)
Definition exponent (s : pystr) : option (Z * pystr) :=
  match s with
  | c :: r =>
      if (c =? 101) || (c =? 69) then
        let '(neg, r') := take_sign r in
        match digitpart r' with
        | Some (ds, r'') => Some (if neg then - number_of ds else number_of ds, r'')
        | None => None
        end
      else Some (0, s)
  | [] => Some (0, [])
  end.

(** [float(s)] for a string. *)
Definition parse (s : pystr) : outcome float :=
  let '(neg, body) := take_sign (strip s) in
  let low := lower body in
  if Text.eqb low (u "inf") || Text.eqb low (u "infinity") then Ok (S754_infinity neg)
  else if Text.eqb low (u "nan") then Ok S754_nan
  else
    match number body with
    | Some (ip, fp, r) =>
        match exponent r with
        | Some (ex, []) =>
            let n := number_of (ip ++ fp) in
            let n := if neg then - n else n in
            let k := ex - Z.of_nat (length fp) in
            Ok (if 0 <=? k then of_ratio neg (n * 10 ^ k) 1
                else of_ratio neg n (10 ^ (- k)))
        | _ => Raise ValueError
        end
    | None => Raise ValueError
    end.

(** Is [10^k <= n / d] ? *)
Definition ge_pow10 (n d k : Z) : bool :=
  if 0 <=? k then d * 10 ^ k <=? n else d <=? n * 10 ^ (- k).

Fixpoint adjust_down (fuel : nat) (n d k : Z) : Z :=
  match fuel with
  | O => k
  | S fuel' => if ge_pow10 n d k then k else adjust_down fuel' n d (k - 1)
  end.

Fixpoint adjust_up (fuel : nat) (n d k : Z) : Z :=
  match fuel with
  | O => k
  | S fuel' => if ge_pow10 n d (k + 1) then adjust_up fuel' n d (k + 1) else k
  end.

(** The floor of the decimal logarithm of [n / d], for [n, d > 0]. *)
Definition ilog10_ratio (n d : Z) : Z :=
  let k0 := ((Z.log2 n - Z.log2 d) * 30103) / 100000 in
  adjust_up 4 n d (adjust_down 4 n d k0).

(** The number a decimal [c * 10^sc] reads as. *)
Definition of_decimal (c sc : Z) : float :=
  if 0 <=? sc then of_ratio false (c * 10 ^ sc) 1 else of_ratio false c (10 ^ (- sc)).

Definition same (x y : float) : bool :=
  match compare x y with Some Eq => true | _ => false end.

(** The shortest decimal that reads back as [x = n / d > 0]: with [p]
    digits, the two decimals around [x] are tried, the nearer first. *)
Fixpoint shortest (fuel : nat) (p : Z) (x : float) (n d k : Z) : Z * Z :=
  let sc := k - p + 1 in
  let num := if 0 <=? sc then n else n * 10 ^ (- sc) in
  let den := if 0 <=? sc then d * 10 ^ sc else d in
  let lo := num / den in
  let up := match (2 * (num mod den)) ?= den with
            | Lt => false | Gt => true | Eq => Z.odd lo end in
  let first := if up then lo + 1 else lo in
  let second := if up then lo else lo + 1 in
  match fuel with
  | O => (first, sc)
  | S fuel' =>
      if same (of_decimal first sc) x then (first, sc)
      else if same (of_decimal second sc) x then (second, sc)
      else shortest fuel' (p + 1) x n d k
  end.

Fixpoint drop_zeros (ds : list Z) : list Z :=
  match ds with
  | c :: ds' => if c =? 48 then drop_zeros ds' else ds
  | [] => []
  end.

(** The digits and the position of the decimal point of [repr]. *)
Definition digits_of (m : positive) (e : Z) : pystr * Z :=
  let n := if 0 <=? e then Z.pos m * 2 ^ e else Z.pos m in
  let d := if 0 <=? e then 1 else 2 ^ (- e) in
  let '(c, sc) := shortest 16 1 (S754_finite false m e) n d (ilog10_ratio n d) in
  let ds := Text.of_int c in
  (rev (drop_zeros (rev ds)), len ds + sc).

(** [repr(x)], which is also [str(x)]. *)
Definition repr (x : float) : pystr :=
  match x with
  | S754_nan => u "nan"
  | S754_infinity s => if s then u "-inf" else u "inf"
  | S754_zero s => if s then u "-0.0" else u "0.0"
  | S754_finite s m e =>
      let '(ds, decpt) := digits_of m e in
      let body :=
        if (decpt <=? -4) || (16 <? decpt) then
          let ex := decpt - 1 in
          firstn 1 ds
          ++ (match skipn 1 ds with [] => [] | r => 46 :: r end)
          ++ [101; if ex <? 0 then 45 else 43]
          ++ zfill 2 (Text.of_int (Z.abs ex))
        else if decpt <=? 0 then
          u "0." ++ times 48 (- decpt) ++ ds
        else if len ds <=? decpt then
          ds ++ times 48 (decpt - len ds) ++ u ".0"
        else slice_to ds decpt ++ [46] ++ slice_from ds decpt in
      if s then 45 :: body else body
  end.

End FloatText.

(* ================================================================== *)
(** * Cells, rows and tables *)
(* ================================================================== *)

(** A cell: a missing object ([None]), text, an integer or a float; the
    missing number of pandas is the float NaN. *)
Inductive value : Type :=
| VNone
| VStr (s : pystr)
| VInt (n : Z)
| VFloat (x : F64.float).

(** [str(v)]. *)
Definition py_str (v : value) : pystr :=
  match v with
  | VNone => u "None"
  | VStr s => s
  | VInt n => Text.of_int n
  | VFloat x => FloatText.repr x
  end.

(** [pd.notna(v)]. *)
Definition notna (v : value) : bool :=
  match v with
  | VNone | VFloat S754_nan => false
  | _ => true
  end.

(** [bool(v)], as [and], [or] and [if] test it. *)
Definition truthy (v : value) : bool :=
  match v with
  | VNone => false
  | VStr s => negb (Text.eqb s [])
  | VInt n => negb (n =? 0)
  | VFloat x => F64.truthy x
  end.

(** [float(v)]. *)
Definition py_float (v : value) : outcome F64.float :=
  match v with
  | VNone => Raise TypeError
  | VStr s => FloatText.parse s
  | VInt n => F64.of_int n
  | VFloat x => Ok x
  end.

(** [int(s)] for a string: an optional sign and a [digitpart]. *)
Definition py_int (s : pystr) : outcome Z :=
  let '(neg, body) := FloatText.take_sign (strip s) in
  match FloatText.digitpart body with
  | Some (ds, []) => Ok (if neg then - FloatText.number_of ds else FloatText.number_of ds)
  | _ => Raise ValueError
  end.

(** A row as [iterrows] yields it: a Series from column labels to cells. *)
Definition row := list (pystr * value).

Definition mem (c : pystr) (l : list pystr) : bool := existsb (Text.eqb c) l.

(** [c in r]. *)
Definition has (c : pystr) (r : row) : bool := mem c (map fst r).

(** [r.get(c, default)]. *)
Fixpoint get (c : pystr) (r : row) (default : value) : value :=
  match r with
  | [] => default
  | (k, v) :: r' => if Text.eqb c k then v else get c r' default
  end.

(** [r[c]]. *)
Definition getitem (c : pystr) (r : row) : outcome value :=
  if has c r then Ok (get c r VNone) else Raise KeyError.

(** [r[c] = v]: the cell is replaced, or added at the end under a new label. *)
Fixpoint setitem (c : pystr) (v : value) (r : row) : row :=
  match r with
  | [] => [(c, v)]
  | (k, w) :: r' => if Text.eqb c k then (k, v) :: r' else (k, w) :: setitem c v r'
  end.

(** A table: column labels, and for every row its index label and its
    cells in column order.  Labels of columns are taken to be distinct. *)
Record DataFrame : Type := Frame {
  columns : list pystr;
  rows : list (Z * list value)
}.

(** [df.iterrows()]. *)
Definition iterrows (df : DataFrame) : list (Z * row) :=
  map (fun ir => (fst ir, combine (columns df) (snd ir))) (rows df).

(** [pd.DataFrame(out_rows)] for Series over the same labels: no row, no
    column. *)
Definition frame_of (out_rows : list (Z * row)) : DataFrame :=
  Frame (match out_rows with [] => [] | (_, r) :: _ => map fst r end)
        (map (fun ir => (fst ir, map snd (snd ir))) out_rows).

(** What a run reads from outside its arguments: the calendar
    ([date.today().year]) and the module-level generator
    ([random.getrandbits(128)]). *)
Record env : Type := Env {
  today_year : Z;
  getrandbits128 : Z
}.

Fixpoint hex_digits_rev (fuel : nat) (n : Z) : list Z :=
  match fuel with
  | O => []
  | S fuel' =>
      if n <=? 0 then [] else Sha256.hex_chr (n mod 16) :: hex_digits_rev fuel' (n / 16)
  end.

(** [hex(n)] for [n >= 0]. *)
Definition py_hex (n : Z) : pystr :=
  u "0x" ++ match rev (hex_digits_rev (S (Z.to_nat (Z.log2 n))) n) with
            | [] => [48]
            | ds => ds
            end.

(** [salt if salt else hex(random.getrandbits(128))]. *)
Definition salt_or_new (e : env) (salt : option pystr) : pystr :=
  match salt with
  | Some s => if Text.eqb s [] then py_hex (getrandbits128 e) else s
  | None => py_hex (getrandbits128 e)
  end.

(** [int(hashlib.sha256(s.encode()).hexdigest(), 16)]. *)
Definition sha_hex (s : pystr) : outcome pystr :=
  match encode s with
  | Some bytes => Ok (Sha256.hexdigest bytes)
  | None => Raise UnicodeEncodeError
  end.

Definition sha_int (s : pystr) : outcome Z :=
  h <- sha_hex s ;;
  match int16 h with
  | Some n => Ok n
  | None => Raise ValueError
  end.

(** [name_list[r % len(name_list)]]. *)
Definition pick {A : Type} (l : list A) (r : Z) : outcome A :=
  match l with
  | [] => Raise ZeroDivisionError
  | _ =>
      match nth_error l (Z.to_nat (r mod Z.of_nat (length l))) with
      | Some a => Ok a
      | None => Raise IndexError
      end
  end.

(** [d[k]] for a dictionary. *)
Fixpoint lookup {A : Type} (k : pystr) (d : list (pystr * A)) : option A :=
  match d with
  | [] => None
  | (k', a) :: d' => if Text.eqb k k' then Some a else lookup k d'
  end.

Definition bar : pystr := [124].

(* ================================================================== *)
(** * [Main.py]: class [SyntheticDataGenerator] *)
(* ================================================================== *)

Module Main.

Record fraud_indicators : Type := FraudIndicators {
  high_amount_threshold : F64.float;
  high_amount_risk_increase : F64.float;
  new_account_risk_increase : F64.float;
  base_fraud_probability : F64.float;
  max_fraud_probability : F64.float
}.

(** The effective configuration, every group present. *)
Record config : Type := Config {
  names_male : list pystr;
  names_female : list pystr;
  cities : list pystr;
  isps : list pystr;
  card_brands : list (pystr * pystr);
  amount_ranges : list (pystr * (F64.float * F64.float * F64.float));
  fraud : fraud_indicators
}.

(** What the caller passes: any subset of the top-level groups. *)
Record overrides : Type := Overrides {
  o_names : option (list pystr * list pystr);
  o_cities : option (list pystr);
  o_isps : option (list pystr);
  o_card_brands : option (list (pystr * pystr));
  o_amount_ranges : option (list (pystr * (F64.float * F64.float * F64.float)));
  o_fraud : option fraud_indicators
}.

Definition no_overrides : overrides := Overrides None None None None None None.

Definition default_male : list pystr :=
  map u ["Aarav"; "Vivaan"; "Kabir"; "Rohan"; "Arjun"; "Aditya"; "Vihaan";
         "Ishaan"; "Reyansh"; "Atharv"; "Noah"; "Oliver"; "James"; "Liam";
         "Henry"; "Lucas"; "Leo"; "Max"; "Finn"; "Ethan"; "Ravi"; "Pranav";
         "Priyansh"; "Piyush"]%string.

Definition default_female : list pystr :=
  map u ["Ananya"; "Ishita"; "Kavya"; "Riya"; "Sanya"; "Meera"; "Diya";
         "Myra"; "Aadhya"; "Navya"; "Zara"; "Emma"; "Olivia"; "Ava";
         "Sophia"; "Isabella"; "Aashi"; "Pooja"; "Priyanshi"; "Tashvi"]%string.

Definition default_cities : list pystr :=
  map u ["Mumbai"; "Delhi"; "Bengaluru"; "Hyderabad"; "Chennai"; "Pune";
         "Kolkata"; "Jaipur"; "Ahmedabad"; "Lucknow"; "Surat"; "Indore";
         "Bhopal"; "Nagpur"; "Noida"; "Visakhapatnam"; "Chandigarh"]%string.

Definition default_isps : list pystr :=
  map u ["Jio"; "Airtel"; "BSNL"; "Vodafone"; "ACT"; "Hathway"; "Verizon";
         "T-Mobile"; "AT&T"; "Spectrum"; "Comcast"]%string.

Definition default_card_brands : list (pystr * pystr) :=
  [(u "visa", u "4"); (u "mastercard", u "5"); (u "amex", u "3")].

Definition default_amount_ranges : list (pystr * (F64.float * F64.float * F64.float)) :=
  [(u "TransactionAmount", (F64.lit 6 10, F64.lit 17 10, F64.lit 50 1));
   (u "SenderBankBalance", (F64.lit 8 10, F64.lit 13 10, F64.lit 100 1));
   (u "ReceiverBankBalance", (F64.lit 8 10, F64.lit 13 10, F64.lit 100 1));
   (u "SenderAnnualIncome", (F64.lit 85 100, F64.lit 125 100, F64.lit 50000 1));
   (u "ReceiverAnnualIncome", (F64.lit 85 100, F64.lit 125 100, F64.lit 50000 1))].

(** The threshold 8000 is an integer in the source; a float is compared
    with it by value, as with the float 8000.0 here. *)
Definition default_fraud : fraud_indicators :=
  FraudIndicators (F64.lit 8000 1) (F64.lit 25 100) (F64.lit 15 100)
                  (F64.lit 1 10) (F64.lit 9 10).

Definition or_default {A : Type} (o : option A) (d : A) : A :=
  match o with Some a => a | None => d end.

(** [__init__] with [_setup_default_config]: a group the caller left out
    takes its default. *)
Definition setup (o : overrides) : config :=
  let names := or_default (o_names o) (default_male, default_female) in
  Config (fst names) (snd names)
         (or_default (o_cities o) default_cities)
         (or_default (o_isps o) default_isps)
         (or_default (o_card_brands o) default_card_brands)
         (or_default (o_amount_ranges o) default_amount_ranges)
         (or_default (o_fraud o) default_fraud).

Definition default_config : config := setup no_overrides.

(** [_hashint]. *)
Definition _hashint (salt key : pystr) : outcome Z :=
  sha_int (salt ++ bar ++ key).

(** [_rng]. *)
Definition _rng (salt key : pystr) : outcome MT.state :=
  h <- sha_int (salt ++ bar ++ key) ;;
  Ok (MT.seed (h mod 2 ^ 32)).

(** [gender and gender.lower() in options]. *)
Definition gender_in (gender : value) (options : list pystr) : outcome bool :=
  if truthy gender then
    match gender with
    | VStr g => Ok (mem (lower g) options)
    | _ => Raise AttributeError
    end
  else Ok false.

Definition _det_name (cfg : config) (salt key : pystr) (gender : value) : outcome pystr :=
  r <- _hashint salt (u "name|" ++ key) ;;
  is_m <- gender_in gender [u "male"; u "m"] ;;
  name_list <-
    (if is_m then Ok (names_male cfg)
     else is_f <- gender_in gender [u "female"; u "f"] ;;
          Ok (if is_f then names_female cfg else names_male cfg ++ names_female cfg)) ;;
  pick name_list r.

Definition _det_city (cfg : config) (salt key : pystr) : outcome pystr :=
  r <- _hashint salt (u "city|" ++ key) ;;
  pick (cities cfg) r.

Definition dot : pystr := [46].

Definition _det_ip (salt key : pystr) : outcome pystr :=
  r <- _rng salt (u "ip|" ++ key) ;;
  '(a, r) <- MT.randint 1 223 r ;;
  '(b, r) <- MT.randint 0 255 r ;;
  '(c, r) <- MT.randint 0 255 r ;;
  '(d, _) <- MT.randint 1 254 r ;;
  Ok (Text.of_int a ++ dot ++ Text.of_int b ++ dot ++ Text.of_int c ++ dot ++ Text.of_int d).

Definition _det_isp (cfg : config) (salt key : pystr) : outcome pystr :=
  r <- _hashint salt (u "isp|" ++ key) ;;
  pick (isps cfg) r.

(** [f"{n:0wd}"]. *)
Definition fmt0 (w : Z) (n : Z) : pystr := zfill w (Text.of_int n).

Definition dash : pystr := [45].
Definition colon : pystr := [58].

Definition _det_date_young (e : env) (salt key : pystr) (min_age max_age : Z)
  : outcome pystr :=
  r <- _rng salt (u "dob|" ++ key) ;;
  '(age, r) <- MT.randint min_age max_age r ;;
  let year := today_year e - age in
  '(month, r) <- MT.randint 1 12 r ;;
  '(day, _) <- MT.randint 1 28 r ;;
  Ok (fmt0 4 year ++ dash ++ fmt0 2 month ++ dash ++ fmt0 2 day).

Definition _det_date_recent (e : env) (salt key : pystr) (years : Z) : outcome pystr :=
  r <- _rng salt (u "recent|" ++ key) ;;
  '(back, r) <- MT.randint 0 years r ;;
  let year := today_year e - back in
  '(month, r) <- MT.randint 1 12 r ;;
  '(day, _) <- MT.randint 1 28 r ;;
  Ok (fmt0 4 year ++ dash ++ fmt0 2 month ++ dash ++ fmt0 2 day).

Definition _det_time (salt key : pystr) : outcome pystr :=
  r <- _rng salt (u "time|" ++ key) ;;
  '(h, r) <- MT.randint 0 23 r ;;
  '(m, r) <- MT.randint 0 59 r ;;
  '(s, _) <- MT.randint 0 59 r ;;
  Ok (fmt0 2 h ++ colon ++ fmt0 2 m ++ colon ++ fmt0 2 s).

(** [[int(x) for x in num15]]. *)
Fixpoint int_digits (s : pystr) : outcome (list Z) :=
  match s with
  | [] => Ok []
  | c :: s' =>
      match digit_value c with
      | Some d => ds <- int_digits s' ;; Ok (d :: ds)
      | None => Raise ValueError
      end
  end.

(** The loop [for i in range(len(digits)-1, -1, -2)], on the digits read
    from the right: every other one, starting with the first, is doubled
    and brought back below ten. *)
Fixpoint double_alternate (dbl : bool) (ds : list Z) : list Z :=
  match ds with
  | [] => []
  | d :: ds' =>
      (if dbl then (if 9 <? d * 2 then d * 2 - 9 else d * 2) else d)
      :: double_alternate (negb dbl) ds'
  end.

Definition sum (l : list Z) : Z := fold_right Z.add 0 l.

Definition _luhn_checkdigit (num15 : pystr) : outcome pystr :=
  digits <- int_digits num15 ;;
  let s := sum (double_alternate true (rev digits)) in
  Ok (Text.of_int ((10 - s mod 10) mod 10)).

Definition _det_card (cfg : config) (salt key brand : pystr) : outcome pystr :=
  let brand := if existsb (fun kv => Text.eqb brand (fst kv)) (card_brands cfg)
               then brand else u "visa" in
  match lookup brand (card_brands cfg) with
  | None => Raise KeyError
  | Some prefix =>
      h <- _hashint salt (u "card|" ++ key) ;;
      let base := zfill 15 (prefix ++ slice_to (Text.of_int h) (15 - len prefix)) in
      c <- _luhn_checkdigit base ;;
      Ok (base ++ c)
  end.

Definition _det_digits (salt key : pystr) (n : Z) : outcome pystr :=
  h <- _hashint salt (u "digits|" ++ key) ;;
  Ok (zfill n (slice_from (Text.of_int h) (- n))).

(** [r.uniform(low, high)]: [low + (high - low) * r.random()]. *)
Definition uniform (low high : F64.float) (r : MT.state) : F64.float :=
  F64.add low (F64.mul (F64.sub high low)
                       (F64.of_ratio false (fst (MT.random53 r)) (2 ^ 53))).

(** [r.random()]. *)
Definition random (r : MT.state) : F64.float :=
  F64.of_ratio false (fst (MT.random53 r)) (2 ^ 53).

Definition _perturb (val : value) (salt key : pystr) (low high floor : F64.float)
  : outcome value :=
  match py_float val with
  | Raise ValueError | Raise TypeError => Ok val
  | Raise e => Raise e
  | Diverge => Diverge
  | Ok x =>
      r <- _rng salt (u "noise|" ++ key) ;;
      let factor := uniform low high r in
      Ok (VFloat (F64.round2 (F64.max floor (F64.mul x factor))))
  end.

(** [_first_nonempty]. *)
Fixpoint _first_nonempty (r : row) (candidates : list pystr) : pystr :=
  match candidates with
  | [] => []
  | c :: cs =>
      if has c r && notna (get c r VNone)
         && negb (Text.eqb (strip (py_str (get c r VNone))) [])
      then py_str (get c r VNone)
      else _first_nonempty r cs
  end.

Inductive category : Type :=
| name_columns | address_columns | id_columns | date_columns | amount_columns
| phone_columns | email_columns | ip_columns | gender_columns.

Definition any_in (keys : list string) (col_lower : pystr) : bool :=
  existsb (fun k => contains (u k) col_lower) keys.

(** One turn of the loop of [_detect_column_types]: the first keyword
    group that matches the lower-cased label decides. *)
Definition classify (col : pystr) : option category :=
  let col_lower := lower col in
  if any_in ["name"; "firstname"; "lastname"] col_lower then Some name_columns
  else if any_in ["address"; "city"; "location"] col_lower then Some address_columns
  else if any_in ["id"; "ssn"; "aadhaar"; "aadhar"; "pan"] col_lower then Some id_columns
  else if any_in ["date"; "time"; "dob"; "birth"] col_lower then Some date_columns
  else if any_in ["amount"; "balance"; "income"; "price"; "value"] col_lower
       then Some amount_columns
  else if any_in ["phone"; "mobile"; "contact"] col_lower then Some phone_columns
  else if contains (u "email") col_lower then Some email_columns
  else if contains (u "ip") col_lower then Some ip_columns
  else if contains (u "gender") col_lower then Some gender_columns
  else None.

Definition category_eqb (a b : category) : bool :=
  match a, b with
  | name_columns, name_columns | address_columns, address_columns
  | id_columns, id_columns | date_columns, date_columns
  | amount_columns, amount_columns | phone_columns, phone_columns
  | email_columns, email_columns | ip_columns, ip_columns
  | gender_columns, gender_columns => true
  | _, _ => false
  end.

(** [_detect_column_types(df)[cat]]. *)
Definition _detect_column_types (cols : list pystr) (cat : category) : list pystr :=
  filter (fun col => match classify col with
                     | Some c => category_eqb c cat
                     | None => false
                     end) cols.

(** [sender_key if "receiver" not in col.lower() else receiver_key]. *)
Definition base_key (sender_key receiver_key col : pystr) : pystr :=
  if negb (contains (u "receiver") (lower col)) then sender_key else receiver_key.

(** What the body of the row loop has at hand: the run, the table's
    columns, and the row with its three identity keys. *)
Record ctx : Type := Ctx {
  c_env : env;
  c_cfg : config;
  c_cols : list pystr;
  c_salt : pystr;
  c_row : row;
  sender_key : pystr;
  receiver_key : pystr;
  txn_key : pystr
}.

Definition key_of (c : ctx) (col : pystr) : pystr :=
  base_key (sender_key c) (receiver_key c) col.

(** [if col in df.columns: new[col] = f()]; the right-hand side is
    evaluated only when the column is there. *)
Definition when_column (c : ctx) (col : string) (f : unit -> outcome pystr) (new : row)
  : outcome row :=
  if mem (u col) (c_cols c)
  then s <- f tt ;; Ok (setitem (u col) (VStr s) new)
  else Ok new.

Definition names_step (c : ctx) (new : row) (col : pystr) : outcome row :=
  let gender :=
    if contains (u "sender") (lower col) && mem (u "SenderGender") (c_cols c)
    then get (u "SenderGender") (c_row c) VNone
    else if contains (u "receiver") (lower col) && mem (u "ReceiverGender") (c_cols c)
    then get (u "ReceiverGender") (c_row c) VNone
    else VNone in
  s <- _det_name (c_cfg c) (c_salt c) (key_of c col ++ bar ++ col) gender ;;
  Ok (setitem col (VStr s) new).

Definition address_step (c : ctx) (new : row) (col : pystr) : outcome row :=
  s <- _det_city (c_cfg c) (c_salt c) (key_of c col ++ bar ++ col) ;;
  Ok (setitem col (VStr s) new).

Definition ip_step (c : ctx) (new : row) (col : pystr) : outcome row :=
  s <- _det_ip (c_salt c) (key_of c col ++ bar ++ col) ;;
  Ok (setitem col (VStr s) new).

Definition isp_step (c : ctx) (new : row) (col : pystr) : outcome row :=
  s <- _det_isp (c_cfg c) (c_salt c) (key_of c col ++ bar ++ col) ;;
  Ok (setitem col (VStr s) new).

Definition gender_step (c : ctx) (new : row) (col : pystr) : outcome row :=
  r <- _rng (c_salt c) (u "gender|" ++ key_of c col) ;;
  '(g, _) <- MT.choice [u "Male"; u "Female"; u "Other"] r ;;
  Ok (setitem col (VStr g) new).

Definition amount_step (c : ctx) (new : row)
  (entry : pystr * (F64.float * F64.float * F64.float)) : outcome row :=
  let '(col, (low, high, floor)) := entry in
  if mem col (c_cols c) then
    val <- getitem col (c_row c) ;;
    v <- _perturb val (c_salt c) (txn_key c ++ bar ++ col) low high floor ;;
    Ok (setitem col v new)
  else Ok new.

(** [v[:4]] for a cell. *)
Definition first4 (v : value) : outcome pystr :=
  match v with
  | VStr s => Ok (slice_to s 4)
  | _ => Raise TypeError
  end.

(** The probability the label is drawn against, from the amount and from
    whether the receiver's account counts as new. *)
Definition fraud_probability (f : fraud_indicators) (amt : F64.float) (new_account : bool)
  : F64.float :=
  let prob := base_fraud_probability f in
  let prob := if F64.gtb amt (high_amount_threshold f)
              then F64.add prob (high_amount_risk_increase f) else prob in
  let prob := if new_account
              then F64.add prob (new_account_risk_increase f) else prob in
  F64.min prob (max_fraud_probability f).

(** [new.get("TransactionAmount", 0) or 0]. *)
Definition amount_read (new : row) : value :=
  let a := get (u "TransactionAmount") new (VInt 0) in
  if truthy a then a else VInt 0.

(** Whether the branch [if "ReceiverAccountCreationDate" in new] adds its
    increase: the first four characters of the cell, read as a year, are
    not before last year. *)
Definition new_account (e : env) (new : row) : outcome bool :=
  if has (u "ReceiverAccountCreationDate") new then
    y <- first4 (get (u "ReceiverAccountCreationDate") new VNone) ;;
    creation_year <- py_int y ;;
    Ok (today_year e - 1 <=? creation_year)
  else Ok false.

Definition fraud_step (c : ctx) (new : row) : outcome row :=
  if mem (u "Fraud") (c_cols c) then
    r <- _rng (c_salt c) (u "fraud|" ++ txn_key c) ;;
    amt <- py_float (amount_read new) ;;
    is_new <- new_account (c_env c) new ;;
    let p := fraud_probability (fraud (c_cfg c)) amt is_new in
    Ok (setitem (u "Fraud") (VInt (if F64.ltb (random r) p then 1 else 0)) new)
  else Ok new.

(** The body of the row loop, from [new = row.copy()] to the label. *)
Definition fill (c : ctx) : outcome row :=
  let types := _detect_column_types (c_cols c) in
  let e := c_env c in
  let salt := c_salt c in
  let sk := sender_key c in
  let rk := receiver_key c in
  let tk := txn_key c in
  new <- for_each (names_step c) (types name_columns) (c_row c) ;;
  new <- for_each (address_step c) (types address_columns) new ;;
  new <- when_column c "SenderAadhar" (fun _ => _det_digits salt (sk ++ u "|aadhaar") 12) new ;;
  new <- when_column c "SenderSSN" (fun _ => _det_digits salt (sk ++ u "|ssn") 9) new ;;
  new <- when_column c "ReceiverSSN" (fun _ => _det_digits salt (rk ++ u "|ssn") 9) new ;;
  new <- when_column c "SenderCard" (fun _ => _det_card (c_cfg c) salt sk (u "visa")) new ;;
  new <- when_column c "ReceiverCard" (fun _ => _det_card (c_cfg c) salt rk (u "mc")) new ;;
  new <- for_each (ip_step c) (types ip_columns) new ;;
  new <- for_each (isp_step c)
           (filter (fun col => contains (u "isp") (lower col)) (c_cols c)) new ;;
  new <- for_each (gender_step c) (types gender_columns) new ;;
  new <- when_column c "SenderDOB" (fun _ => _det_date_young e salt sk 18 70) new ;;
  new <- when_column c "ReceiverDOB" (fun _ => _det_date_young e salt rk 18 70) new ;;
  new <- when_column c "TransactionDate" (fun _ => _det_date_recent e salt tk 9) new ;;
  new <- when_column c "TransactionTime" (fun _ => _det_time salt tk) new ;;
  new <- when_column c "ReceiverAccountCreationDate" (fun _ => _det_date_recent e salt rk 10) new ;;
  new <- when_column c "LastTransactionDate" (fun _ => _det_date_recent e salt sk 2) new ;;
  new <- for_each (amount_step c) (amount_ranges (c_cfg c)) new ;;
  fraud_step c new.

(** [x or fallback] on strings. *)
Definition or_else (s fallback : pystr) : pystr :=
  if Text.eqb s [] then fallback else s.

(** One turn of [for i, row in df.iterrows()]: the three keys, then the body. *)
Definition synth_row (e : env) (cfg : config) (cols : list pystr) (salt : pystr)
  (ir : Z * row) : outcome (Z * row) :=
  let '(i, r) := ir in
  let sk := or_else (_first_nonempty r [u "SenderAadhar"; u "SenderSSN";
                                         u "SenderPhone"; u "SenderName"])
                    (u "snd" ++ Text.of_int i) in
  let rk := or_else (_first_nonempty r [u "ReceiverSSN"; u "ReceiverCard";
                                         u "ReceiverPhone"; u "ReceiverName"])
                    (u "rcv" ++ Text.of_int i) in
  let tk := py_str (get (u "TransactionID") r (VInt i)) in
  new <- fill (Ctx e cfg cols salt r sk rk tk) ;;
  Ok (i, new).

(** The method [generate_synthetic_data]. *)
Definition generate_synthetic_data (e : env) (cfg : config) (df : DataFrame)
  (salt : option pystr) : outcome DataFrame :=
  let salt := salt_or_new e salt in
  out_rows <-
    for_each (fun out_rows ir =>
                new <- synth_row e cfg (columns df) salt ir ;;
                Ok (out_rows ++ [new]))
             (iterrows df) [] ;;
  Ok (frame_of out_rows).

End Main.

(** The module-level wrapper of [Main.py]: a generator with no override. *)
Definition generate_synthetic_data (e : env) (df : DataFrame) (salt : option pystr)
  : outcome DataFrame :=
  Main.generate_synthetic_data e Main.default_config df salt.

(* ================================================================== *)
(** * [tokenizer.py]: class [DataTokenizer] *)
(* ================================================================== *)

Module Tokenizer.

Record config : Type := Config {
  name_list : list pystr;
  city_list : list pystr;
  mask_digits : Z;
  token_prefixes : list (pystr * pystr)
}.

Record overrides : Type := Overrides {
  o_name_list : option (list pystr);
  o_city_list : option (list pystr);
  o_mask_digits : option Z;
  o_token_prefixes : option (list (pystr * pystr))
}.

Definition no_overrides : overrides := Overrides None None None None.

Definition default_names : list pystr :=
  map u ["Aarav"; "Vivaan"; "Kabir"; "Rohan"; "Arjun"; "Aditya"; "Vihaan"; "Ishaan";
         "Reyansh"; "Atharv"; "Ananya"; "Ishita"; "Kavya"; "Riya"; "Sanya"; "Meera";
         "Diya"; "Myra"; "Aadhya"; "Navya"; "Joe"; "Alex"; "Mack"; "Zara"; "Noah";
         "Oliver"; "James"; "Liam"; "Emma"; "Olivia"; "Ava"; "Sophia"; "Isabella";
         "Henry"; "Lucas"; "Leo"; "Max"; "Finn"; "Ethan"; "Ravi"; "Tashvi"; "Aarav";
         "Aashi"; "Pooja"; "Pranav"; "Priyanshi"; "Priyansh"; "Piyush"; "Shorya"].

Definition default_cities : list pystr :=
  map u ["Mumbai"; "Delhi"; "Bengaluru"; "Hyderabad"; "Chennai"; "Pune"; "Kolkata";
         "Jaipur"; "Ahmedabad"; "Lucknow"; "Surat"; "Indore"; "Bhopal"; "Nagpur";
         "Noida"; "Visakhapatnam"; "Chandigarh"; "California"; "Texas"; "Florida";
         "New York"; "Maryland"; "Colorado"].

Definition default_prefixes : list (pystr * pystr) :=
  [(u "aadhaar", u "AAD"); (u "ssn", u "SSN"); (u "card", u "CARD");
   (u "receiver_card", u "RCARD")].

Definition setup (o : overrides) : config :=
  Config (Main.or_default (o_name_list o) default_names)
         (Main.or_default (o_city_list o) default_cities)
         (Main.or_default (o_mask_digits o) 4)
         (Main.or_default (o_token_prefixes o) default_prefixes).

Definition default_config : config := setup no_overrides.

Definition _salt_or_new := salt_or_new.

Definition _sha (val : pystr) : outcome pystr := sha_hex val.

(** [f"{prefix}-{self._sha(salt + '|' + str(raw))[:12]}"]. *)
Definition _token (prefix raw salt : pystr) : outcome pystr :=
  h <- _sha (salt ++ bar ++ raw) ;;
  Ok (prefix ++ [45] ++ slice_to h 12).

Definition star : Z := 42.

Definition digits_only (num : pystr) : pystr := filter isdigit num.

(** [if last is None: last = self.config['mask_digits']]. *)
Definition keep_count (cfg : config) (last : option Z) : Z :=
  match last with None => mask_digits cfg | Some n => n end.

(** [_mask_keep_last(num, last)]. *)
Definition _mask_keep_last (cfg : config) (num : pystr) (last : option Z) : pystr :=
  let last := keep_count cfg last in
  let s := digits_only num in
  if len s <=? last then s
  else times star (len s - last) ++ slice_from s (- last).

Definition _mask_keep_first_last (num : pystr) (keep : Z) : pystr :=
  let s := digits_only num in
  if len s <=? keep * 2 then s
  else slice_to s keep ++ times star (len s - keep * 2) ++ slice_from s (- keep).

Definition int_of_sha (s : pystr) : outcome Z :=
  h <- _sha s ;;
  match int16 h with
  | Some n => Ok n
  | None => Raise ValueError
  end.

Definition _city_from_hash (cfg : config) (text salt : pystr) : outcome pystr :=
  h <- int_of_sha (salt ++ bar ++ text) ;;
  pick (city_list cfg) h.

Definition _name_from_hash (cfg : config) (text salt : pystr) : outcome pystr :=
  h <- int_of_sha (salt ++ bar ++ text) ;;
  pick (name_list cfg) h.

Definition _email_from_hash (cfg : config) (text salt domain : pystr) : outcome pystr :=
  n <- _name_from_hash cfg text (salt ++ u "|email") ;;
  Ok (replace_chr 32 46 (lower n) ++ [64] ++ domain).

(** [d[k]], which raises on a missing key. *)
Definition prefix_of (cfg : config) (k : string) : outcome pystr :=
  match lookup (u k) (token_prefixes cfg) with
  | Some p => Ok p
  | None => Raise KeyError
  end.

(** The entries of [transformation_map], in order: the test on the column
    label and the transformation of a cell already turned into text. *)
Definition transformation_map (cfg : config) (salt : pystr)
  : list ((pystr -> bool) * (pystr -> pystr -> outcome pystr)) :=
  [ (fun c => contains (u "name") (lower c)
              && negb (contains (u "transaction") (lower c))
              && negb (contains (u "location") (lower c)),
     fun v c => _name_from_hash cfg v (salt ++ bar ++ c));
    (fun c => contains (u "aadhaar") (lower c) || contains (u "aadhar") (lower c),
     fun v c => p <- prefix_of cfg "aadhaar" ;; _token p v salt);
    (fun c => Text.eqb (lower c) (u "ssn") || contains (u "ssn") (lower c),
     fun v c => p <- prefix_of cfg "ssn" ;; _token p v salt);
    (fun c => contains (u "card") (lower c) && contains (u "receiver") (lower c),
     fun v c => p <- prefix_of cfg "receiver_card" ;; _token p v salt);
    (fun c => contains (u "card") (lower c),
     fun v c => p <- prefix_of cfg "card" ;; _token p v salt);
    (fun c => contains (u "phone") (lower c) || contains (u "mobile") (lower c),
     fun v c => Ok (_mask_keep_last cfg v None));
    (fun c => contains (u "email") (lower c),
     fun v c => _email_from_hash cfg v (salt ++ bar ++ c) (u "example.com"));
    (fun c => contains (u "address") (lower c),
     fun v c => _city_from_hash cfg v (salt ++ bar ++ c)) ].

(** The cells of the column at position [j], and the table with that
    column replaced. *)
Definition column_at (j : nat) (rws : list (Z * list value)) : list value :=
  map (fun ir => nth j (snd ir) VNone) rws.

Fixpoint set_nth {A : Type} (j : nat) (a : A) (l : list A) : list A :=
  match l, j with
  | [], _ => []
  | _ :: l', O => a :: l'
  | b :: l', S j' => b :: set_nth j' a l'
  end.

Fixpoint set_column (j : nat) (cells : list value) (rws : list (Z * list value))
  : list (Z * list value) :=
  match rws, cells with
  | (i, vs) :: rws', v :: cells' => (i, set_nth j v vs) :: set_column j cells' rws'
  | _, _ => rws
  end.

(** [out[col].astype(str).apply(lambda v: transform(v, col))]: the cells
    in row order; the first one that raises ends the whole expression. *)
Definition apply_column (transform : pystr -> pystr -> outcome pystr) (col : pystr)
  (cells : list value) : outcome (list value) :=
  map_outcome (fun v => s <- transform (py_str v) col ;; Ok (VStr s)) cells.

(** The inner loop over the rules for one column: a rule whose test holds
    is tried; when it went through the column is assigned and the loop
    left, and when it raised the column is left as it was and the rules
    after it are tried in turn. *)
Fixpoint try_rules (rules : list ((pystr -> bool) * (pystr -> pystr -> outcome pystr)))
  (col : pystr) (j : nat) (rws : list (Z * list value)) : list (Z * list value) :=
  match rules with
  | [] => rws
  | (condition, transform) :: rules' =>
      if condition col then
        match apply_column transform col (column_at j rws) with
        | Ok cells => set_column j cells rws
        | _ => try_rules rules' col j rws
        end
      else try_rules rules' col j rws
  end.

(** The outer loop [for col in out.columns]. *)
Fixpoint each_column (rules : list ((pystr -> bool) * (pystr -> pystr -> outcome pystr)))
  (cols : list pystr) (j : nat) (rws : list (Z * list value)) : list (Z * list value) :=
  match cols with
  | [] => rws
  | col :: cols' => each_column rules cols' (S j) (try_rules rules col j rws)
  end.

(** The method [tokenize_dataset]. *)
Definition tokenize_dataset (e : env) (cfg : config) (df : DataFrame)
  (salt : option pystr) : DataFrame :=
  let salt := _salt_or_new e salt in
  Frame (columns df)
        (each_column (transformation_map cfg salt) (columns df) 0 (rows df)).

End Tokenizer.

(** The module-level wrapper of [tokenizer.py]. *)
Definition tokenize_dataset (e : env) (df : DataFrame) (salt : option pystr) : DataFrame :=
  Tokenizer.tokenize_dataset e Tokenizer.default_config df salt.

(* ================================================================== *)
(** * What the properties are stated with *)
(* ================================================================== *)

(** The standard Luhn validation of a whole card number: from the right,
    every second digit is doubled and replaced by the sum of the digits of
    its double; the number is valid when its characters are digits and the
    total is a multiple of ten. *)
Module Luhn.

Definition doubled (d : Z) : Z := (2 * d) / 10 + (2 * d) mod 10.

Fixpoint total (second : bool) (from_right : list Z) : Z :=
  match from_right with
  | [] => 0
  | d :: rest => (if second then doubled d else d) + total (negb second) rest
  end.

Definition valid (card : pystr) : Prop :=
  exists ds, Main.int_digits card = Ok ds /\ total false (rev ds) mod 10 = 0.

End Luhn.

(** The prefix the brand map gives a brand, that of "visa" for a brand
    the map does not know. *)
Definition configured_prefix (cfg : Main.config) (brand : pystr) : option pystr :=
  match lookup brand (Main.card_brands cfg) with
  | Some p => Some p
  | None => lookup (u "visa") (Main.card_brands cfg)
  end.

Definition decimal_text (s : pystr) : Prop := Forall (fun c => is_decimal c = true) s.

(** What [generate_synthetic_data] makes of one row of the table, given
    the run: the row itself when its turn of the loop does not return. *)
Definition row_image (e : env) (cfg : Main.config) (cols : list pystr) (salt : pystr)
  (ir : Z * list value) : Z * list value :=
  match Main.synth_row e cfg cols salt (fst ir, combine cols (snd ir)) with
  | Ok (i, new) => (i, map snd new)
  | _ => ir
  end.

(** Every row of the table has one cell per column. *)
Definition aligned (df : DataFrame) : Prop :=
  Forall (fun ir => length (snd ir) = length (columns df)) (rows df).

(** A rule of the tokenizer raises on some cell of a column. *)
Definition fails_on (rule : (pystr -> bool) * (pystr -> pystr -> outcome pystr))
  (col : pystr) (cells : list value) : Prop :=
  exists v, In v cells /\ forall s, snd rule (py_str v) col <> Ok s.

(** The rows of a table, and a rule of [transformation_map]. *)
Definition table : Type := list (Z * list value).
Definition rule : Type := (pystr -> bool) * (pystr -> pystr -> outcome pystr).

(** Every row has a cell at position [j]. *)
Definition wide (j : nat) (rws : table) : Prop :=
  Forall (fun ir => (j < length (snd ir))%nat) rws.

(** The number of cells of each row. *)
Definition shape (rws : table) : list nat := map (fun ir => length (snd ir)) rws.

(** The probability of the fraud label in the words of the specification:
    the base, plus each increase whose condition holds, clamped. *)
Definition plus_if (b : bool) (inc p : F64.float) : F64.float :=
  if b then F64.add p inc else p.

Definition claimed_probability (f : Main.fraud_indicators) (amount : F64.float)
  (new_account : bool) : F64.float :=
  F64.min
    (plus_if new_account (Main.new_account_risk_increase f)
       (plus_if (F64.gtb amount (Main.high_amount_threshold f))
          (Main.high_amount_risk_increase f) (Main.base_fraud_probability f)))
    (Main.max_fraud_probability f).

(** The row of the scenario of the specification, with a [Fraud] column. *)
Definition scenario : DataFrame :=
  Frame [u "SenderName"; u "SenderAadhar"; u "TransactionAmount";
         u "ReceiverAccountCreationDate"; u "Fraud"]
        [(0, [VStr (u "Ravi"); VStr (u "123456789012"); VInt 9000;
              VStr (u "2024-01-01"); VInt 0])].

(** The first [random()] of the generator seeded with a salt and a key. *)
Definition first_draw (salt key : pystr) : outcome F64.float :=
  r <- Main._rng salt key ;; Ok (Main.random r).

(** ** Numbers by value *)

Module Value.

Import F64.

(** The value of a zero or of a finite number. *)
Definition dyadic (x : float) : option (Z * Z) :=
  match x with
  | S754_zero _ => Some (0, 0)
  | S754_finite s m e => Some (signed s m, e)
  | _ => None
  end.

Definition sign_of (x : float) : bool :=
  match x with
  | S754_zero s | S754_infinity s | S754_finite s _ _ => s
  | S754_nan => false
  end.

(** The exponent [nearest] comes to. *)
Definition expo (a d : Z) : Z := Z.max (-1074) (ilog2_ratio a d - 52).

(** The mantissa 2^53 is 2^52 one exponent higher. *)
Definition norm (m e : Z) : Z * Z := if m =? 2 ^ 53 then (2 ^ 52, e + 1) else (m, e).

End Value.

(** A decimal digit, as a number. *)
Definition digit (d : Z) : Prop := 0 <= d <= 9.

(** ** Tables and rows the properties are tried on *)

Module Sample.

Definition s1 : option pystr := Some (u "s1").

Definition dob : DataFrame := Frame [u "SenderDOB"] [(0, [VStr (u "1990-01-01")])].

Definition ravi : DataFrame := Frame [u "SenderName"] [(0, [VStr (u "Ravi")])].

Definition ravi_asha : list (Z * list value) :=
  [(0, [VStr (u "Ravi")]); (1, [VStr (u "Asha")])].

Definition asha_ravi : list (Z * list value) :=
  [(1, [VStr (u "Asha")]); (0, [VStr (u "Ravi")])].

Definition note : DataFrame := Frame [u "Note"] [(0, [VStr (u "x")])].

(** An amount that is a number, and below it one that is not. *)
Definition amounts : list pystr := [u "TransactionAmount"; u "Fraud"].
Definition amount_100 : Z * list value := (0, [VInt 100; VInt 0]).
Definition amount_abc : Z * list value := (1, [VStr (u "abc"); VInt 0]).

(** A name that cannot be encoded (a lone surrogate), above one that can. *)
Definition surrogate_alice : DataFrame :=
  Frame [u "Name"] [(0, [VStr [55296]]); (1, [VStr (u "Alice")])].

Definition alice : DataFrame := Frame [u "Name"] [(1, [VStr (u "Alice")])].

(** The configuration whose card-brand map is empty. *)
Definition no_brands : Main.config :=
  Main.setup (Main.Overrides None None None (Some []) None None).

Definition card : DataFrame :=
  Frame [u "SenderCard"] [(0, [VStr (u "4111111111111111")])].

(** A row about to be labelled: the amount 9000 and an account of 2024,
    in 2025, for the transaction "0". *)
Definition label_ctx : Main.ctx :=
  Main.Ctx (Env 2025 0) Main.default_config [u "Fraud"] (u "s1") []
           (u "snd0") (u "rcv0") (u "0").

Definition label_row : row :=
  [(u "TransactionAmount", VInt 9000);
   (u "ReceiverAccountCreationDate", VStr (u "2024-01-01"));
   (u "Fraud", VInt 0)].

(** A tokenizer without names, and a column that two rules apply to. *)
Definition no_names : Tokenizer.config :=
  Tokenizer.setup (Tokenizer.Overrides (Some []) None None None).

Definition cardholder : DataFrame :=
  Frame [u "CardholderName"] [(0, [VStr (u "Alice")])].

End Sample.

(* ================================================================== *)
(** * Properties *)
(* ================================================================== *)

(** ** The runtime pieces against CPython's own results *)

Example sha256_abc :
  int16 (Sha256.hexdigest (u "abc"))
  = Some 0xba7816bf8f01cfea414140de5dae2223b00361a396177a9cb410ff61f20015ad.
Proof. vm_compute. reflexivity. Qed.

Example mt_seed5_random53 :
  fst (MT.random53 (MT.seed 5)) = 5610599681987424.
Proof. vm_compute. reflexivity. Qed.

Example mt_seed_two_words :
  let st0 := MT.seed (2 ^ 40 + 7) in
  let '(a, st1) := MT.getrandbits 8 st0 in
  match MT.randint 1 223 st1 with
  | Ok (b, st2) =>
      let '(c, st3) := MT.getrandbits 70 st2 in
      match MT.choice [1; 2; 3] st3 with
      | Ok (d, _) => (a, b, c, d) = (157, 192, 1124106443655682611893, 3)
      | _ => False
      end
  | _ => False
  end.
Proof. vm_compute. reflexivity. Qed.

Example f64_literals :
  F64.add (F64.add (F64.lit 1 10) (F64.lit 25 100)) (F64.lit 15 100) = F64.lit 1 2
  /\ F64.round2 (F64.lit 125 1000) = F64.lit 12 100
  /\ F64.round2 (F64.lit 2675 1000) = F64.lit 267 100
  /\ F64.round2 (F64.lit 375 1000) = F64.lit 38 100
  /\ F64.mul (F64.lit 9000 1) (F64.of_ratio false 5610599681987424 (2 ^ 53))
     = F64.of_ratio false 5606115254007317 (10 ^ 12)
  /\ F64.lit 1 10 = S754_finite false 7205759403792794 (-56).
Proof. vm_compute. repeat split; reflexivity. Qed.

Example float_text_samples :
  map (fun s => match FloatText.parse (u s) with
                | Ok x => FloatText.repr x
                | _ => u "error"
                end)
      ["0.1"; " 7169.87 "; "1e16"; "1E-5"; "123456789012345678901"; "5e-324";
       "1.7976931348623157e308"; "9007199254740992"; "-9_876_543_210."; "1e400";
       "-Infinity"; "NaN"; "abc"; "1__0"; ".5"; "-0"; "2e"; "0.30000000000000004";
       "1e22"; "1e23"; "9000"; ""]%string
  = map u
      ["0.1"; "7169.87"; "1e+16"; "1e-05"; "1.2345678901234568e+20"; "5e-324";
       "1.7976931348623157e+308"; "9007199254740992.0"; "-9876543210.0"; "inf";
       "-inf"; "nan"; "error"; "error"; "0.5"; "-0.0"; "error"; "0.30000000000000004";
       "1e+22"; "1e+23"; "9000.0"; "error"]%string.
Proof. vm_compute. reflexivity. Qed.

Example text_samples :
  Text.of_int (-120) = u "-120" /\ Text.of_int 0 = u "0"
  /\ zfill 5 (u "-42") = u "-0042" /\ zfill 2 (u "123") = u "123"
  /\ slice_from (u "1234") (-0) = u "1234" /\ slice_from (u "1234") (-3) = u "234"
  /\ slice_to (u "1234") (-1) = u "123" /\ slice_to (u "1234") 14 = u "1234"
  /\ py_hex 255 = u "0xff" /\ py_hex 0 = u "0x0"
  /\ strip (u "  a b ") = u "a b" /\ contains (u "isp") (u "senderisp") = true
  /\ py_int (u " -0_12 ") = Ok (-12) /\ py_int (u "2024") = Ok 2024.
Proof. vm_compute. repeat split; reflexivity. Qed.

(** ** Text *)

Section TextFacts.

Lemma eqb_eq (s t : pystr) : Text.eqb s t = true <-> s = t.
Proof.
  revert t; induction s as [|a s IH]; intros [|b t]; simpl; split; intro H;
    try reflexivity; try discriminate.
  - apply andb_true_iff in H as [Hab Hst].
    apply Z.eqb_eq in Hab. apply IH in Hst. now subst.
  - injection H as -> ->. rewrite Z.eqb_refl. now apply IH.
Qed.

Lemma eqb_refl (s : pystr) : Text.eqb s s = true.
Proof. now apply eqb_eq. Qed.

Lemma eqb_neq (s t : pystr) : Text.eqb s t = false <-> s <> t.
Proof.
  split.
  - intros H E. apply eqb_eq in E. congruence.
  - intro H. destruct (Text.eqb s t) eqn:E; [apply eqb_eq in E; contradiction | reflexivity].
Qed.

Lemma len_nonneg (s : pystr) : 0 <= len s.
Proof. unfold len; lia. Qed.

Lemma len_app (s t : pystr) : len (s ++ t) = len s + len t.
Proof. unfold len. rewrite length_app. lia. Qed.

Lemma len_slice_to (s : pystr) (k : Z) :
  0 <= k -> len (slice_to s k) = Z.min (len s) k.
Proof.
  intro H. unfold slice_to, clip, len. rewrite length_firstn.
  destruct (k <? 0) eqn:E; [apply Z.ltb_lt in E; lia|]. lia.
Qed.

Lemma length_times (c k : Z) : length (times c k) = Z.to_nat k.
Proof. apply repeat_length. Qed.

Lemma digits_only_idem (s : pystr) :
  Forall (fun c => isdigit c = true) s -> Tokenizer.digits_only s = s.
Proof.
  unfold Tokenizer.digits_only.
  induction 1 as [|c s Hc _ IH]; simpl; [reflexivity|].
  now rewrite Hc, IH.
Qed.

Lemma In_skipn {A : Type} (x : A) (n : nat) (l : list A) :
  In x (skipn n l) -> In x l.
Proof.
  intro H. rewrite <- (firstn_skipn n l). apply in_or_app. now right.
Qed.

Lemma In_firstn {A : Type} (x : A) (n : nat) (l : list A) :
  In x (firstn n l) -> In x l.
Proof.
  intro H. rewrite <- (firstn_skipn n l). apply in_or_app. now left.
Qed.

End TextFacts.

(** ** Masking ([_mask_keep_last]) *)

Section Masking.

Import Tokenizer.

Variable cfg : Tokenizer.config.

(** With a count between 1 and the length, a digit string keeps its length
    and its last [n] characters, and every character before them is the
    mask character. *)
Lemma mask_keep_last_shape (s : pystr) (last : option Z) :
  Forall (fun c => isdigit c = true) s ->
  1 <= keep_count cfg last <= len s ->
  let n := Z.to_nat (keep_count cfg last) in
  let out := _mask_keep_last cfg s last in
  length out = length s
  /\ skipn (length s - n) out = skipn (length s - n) s
  /\ firstn (length s - n) out = repeat star (length s - n).
Proof.
  intros Hs Hn n out. subst out. unfold _mask_keep_last.
  rewrite (digits_only_idem s Hs).
  destruct (len s <=? keep_count cfg last) eqn:E.
  - apply Z.leb_le in E. assert (len s = keep_count cfg last) as El by lia.
    unfold len in El. subst n. rewrite <- El, Nat2Z.id, Nat.sub_diag.
    now simpl.
  - apply Z.leb_gt in E.
    assert (Hc : clip s (- keep_count cfg last) = (length s - n)%nat).
    { unfold clip, len in *. subst n.
      destruct (- keep_count cfg last <? 0) eqn:E'; [|apply Z.ltb_ge in E'; lia]. lia. }
    assert (Hk : Z.to_nat (len s - keep_count cfg last) = (length s - n)%nat).
    { unfold len in *. subst n. lia. }
    unfold slice_from, times. rewrite Hc, Hk.
    set (k := (length s - n)%nat).
    assert (Hr : length (repeat star k) = k) by apply repeat_length.
    repeat split.
    + rewrite length_app, Hr, length_skipn. subst k n. unfold len in *. lia.
    + rewrite skipn_app, Hr, Nat.sub_diag, skipn_all2 by lia. reflexivity.
    + rewrite firstn_app, Hr, Nat.sub_diag, firstn_all2 by lia.
      simpl. now rewrite app_nil_r.
Qed.

(** C5.  Keeping the last 0 digits of a digit string of length 4 should
    give four mask characters; [_mask_keep_last("1234", 0)] returns the
    eight characters "****1234" instead, all four digits in the clear,
    and so does a tokenizer configured with [mask_digits = 0]. *)
Theorem mask_keep_last_zero_leaks :
  _mask_keep_last cfg (u "1234") (Some 0) = u "****1234"
  /\ _mask_keep_last (setup (Overrides None None (Some 0) None)) (u "1234") None
     = u "****1234".
Proof. split; reflexivity. Qed.


End Masking.


(** A ten-digit number, under the default count of 4. *)
Example mask_ten_digits :
  Tokenizer._mask_keep_last Tokenizer.default_config (u "9876543210") None
  = u "******3210".
Proof. reflexivity. Qed.

(** ** Hashing never fails on encodable text *)

Section Hashing.

Lemma blocks_length (fuel : nat) (h bs : list Z) :
  length h = 8%nat -> length (Sha256.blocks fuel h bs) = 8%nat.
Proof.
  revert h bs. induction fuel as [|fuel IH]; intros h bs Hh; simpl; [exact Hh|].
  destruct bs; [exact Hh|]. apply IH. reflexivity.
Qed.

Lemma be_bytes_range (k : nat) (x b : Z) :
  In b (Sha256.be_bytes k x) -> 0 <= b < 256.
Proof.
  unfold Sha256.be_bytes. intro H. apply in_map_iff in H as [i [<- _]].
  apply Z.mod_pos_bound. lia.
Qed.

Lemma digest_bytes (msg : list Z) :
  Sha256.digest msg <> [] /\ forall b, In b (Sha256.digest msg) -> 0 <= b < 256.
Proof.
  unfold Sha256.digest. split.
  - pose proof (blocks_length (length (Sha256.pad msg)) Sha256.initial_hash
                              (Sha256.pad msg) eq_refl) as H.
    destruct (Sha256.blocks _ _ _) as [|x l]; [discriminate H|].
    simpl. discriminate.
  - intros b Hb. apply in_flat_map in Hb as [x [_ Hb]].
    now apply be_bytes_range in Hb.
Qed.

Lemma hex_value_hex_chr (d : Z) :
  0 <= d < 16 -> hex_value (Sha256.hex_chr d) = Some d.
Proof.
  intro H. assert (d = 0 \/ d = 1 \/ d = 2 \/ d = 3 \/ d = 4 \/ d = 5 \/ d = 6 \/ d = 7
                   \/ d = 8 \/ d = 9 \/ d = 10 \/ d = 11 \/ d = 12 \/ d = 13
                   \/ d = 14 \/ d = 15) as C by lia.
  repeat (destruct C as [->|C]; [reflexivity|]). now subst.
Qed.

Lemma int16_from_hex (bs : list Z) :
  (forall b, In b bs -> 0 <= b < 256) ->
  forall acc, 0 <= acc ->
  exists n, int16_from acc
              (flat_map (fun b => [Sha256.hex_chr (b / 16); Sha256.hex_chr (b mod 16)]) bs)
            = Some n /\ 0 <= n.
Proof.
  induction bs as [|b bs IH]; intros Hb acc Hacc; simpl.
  - now exists acc.
  - assert (0 <= b < 256) as Hr by (apply Hb; now left).
    rewrite !hex_value_hex_chr by (Z.div_mod_to_equations; lia).
    apply IH; [intros; apply Hb; now right|].
    Z.div_mod_to_equations; lia.
Qed.

(** [_hashint] returns, and returns a natural number, exactly when its
    argument can be encoded. *)
Lemma sha_int_ok (s : pystr) :
  encode s <> None -> exists h, sha_int s = Ok h /\ 0 <= h.
Proof.
  intro H. unfold sha_int, sha_hex. destruct (encode s) as [bytes|]; [|contradiction].
  simpl. unfold int16, Sha256.hexdigest.
  destruct (digest_bytes bytes) as [Hne Hb].
  destruct (int16_from_hex (Sha256.digest bytes) Hb 0 (Z.le_refl 0)) as [n [Hn Hpos]].
  destruct (Sha256.digest bytes) as [|b bs]; [contradiction|].
  simpl in *. rewrite Hn. now exists n.
Qed.

End Hashing.

(** ** Card numbers ([_det_card], [_luhn_checkdigit]) *)

Section Card.

Import Main.

Lemma digits_rev_decimal (fuel : nat) (n : Z) : decimal_text (digits_rev fuel n).
Proof.
  revert n. induction fuel as [|fuel IH]; intro n; cbn [digits_rev]; [constructor|].
  destruct (n <=? 0); constructor; [|apply IH].
  unfold is_decimal. pose proof (Z.mod_pos_bound n 10 eq_refl).
  apply andb_true_intro. split; apply Z.leb_le; lia.
Qed.

Lemma of_int_decimal (n : Z) : 0 <= n -> decimal_text (Text.of_int n).
Proof.
  intro H. unfold Text.of_int. destruct (n <? 0) eqn:E; [apply Z.ltb_lt in E; lia|].
  pose proof (digits_rev_decimal (S (Z.to_nat (Z.log2 (Z.abs n)))) (Z.abs n)) as D.
  apply Forall_rev in D.
  destruct (rev _); [repeat constructor | exact D].
Qed.

Lemma digits_rev_length (fuel k : nat) (n : Z) :
  (k < fuel)%nat -> 10 ^ Z.of_nat k <= n -> (k + 1 <= length (digits_rev fuel n))%nat.
Proof.
  revert k n. induction fuel as [|fuel IH]; intros k n Hk Hn; [lia|].
  cbn [digits_rev].
  assert (0 < 10 ^ Z.of_nat k) by (apply Z.pow_pos_nonneg; lia).
  destruct (Z.leb_spec n 0); [lia|]. cbn [length].
  destruct k as [|k]; [lia|].
  assert (10 ^ Z.of_nat k <= n / 10).
  { apply Z.div_le_lower_bound; [lia|].
    rewrite Nat2Z.inj_succ, Z.pow_succ_r in Hn by lia. exact Hn. }
  specialize (IH k (n / 10) ltac:(lia) ltac:(assumption)). lia.
Qed.

(** A number of at least [10^k] is written with more than [k] digits. *)
Lemma of_int_length (k h : Z) : 0 <= k -> 10 ^ k <= h -> k + 1 <= len (Text.of_int h).
Proof.
  intros Hk Hh.
  assert (0 < 10 ^ k) as P by (apply Z.pow_pos_nonneg; lia).
  assert (2 ^ k <= 10 ^ k) by (apply Z.pow_le_mono_l; lia).
  assert (k <= Z.log2 h) by (apply Z.log2_le_pow2; lia).
  unfold Text.of_int. destruct (Z.ltb_spec h 0); [lia|].
  rewrite Z.abs_eq by lia.
  pose proof (digits_rev_length (S (Z.to_nat (Z.log2 h))) (Z.to_nat k) h
                ltac:(lia) ltac:(rewrite Z2Nat.id by lia; exact Hh)) as L.
  rewrite <- length_rev in L.
  destruct (rev _) as [|c ds] eqn:E; [simpl in L; lia|].
  unfold len. lia.
Qed.

Lemma of_int_digit (d : Z) : digit d -> Text.of_int d = [48 + d].
Proof.
  intro H. assert (d = 0 \/ d = 1 \/ d = 2 \/ d = 3 \/ d = 4 \/ d = 5 \/ d = 6
                   \/ d = 7 \/ d = 8 \/ d = 9) as C by (unfold digit in H; lia).
  repeat (destruct C as [->|C]; [reflexivity|]). now subst.
Qed.

Lemma zfill_decimal (w : Z) (s : pystr) :
  decimal_text s -> zfill w s = times 48 (w - len s) ++ s.
Proof.
  intro H. unfold zfill. destruct H as [|c s Hc _]; [now rewrite app_nil_r|].
  unfold is_decimal in Hc.
  destruct (c =? 43) eqn:E1; [apply Z.eqb_eq in E1; lia|].
  destruct (c =? 45) eqn:E2; [apply Z.eqb_eq in E2; lia|]. reflexivity.
Qed.

Lemma int_digits_decimal (s : pystr) :
  decimal_text s -> exists ds, int_digits s = Ok ds /\ Forall digit ds.
Proof.
  induction 1 as [|c s Hc _ [ds [E D]]]; simpl.
  - exists []. split; [reflexivity | constructor].
  - unfold digit_value. rewrite Hc, E. simpl. exists (c - 48 :: ds).
    split; [reflexivity|]. constructor; [|exact D].
    unfold is_decimal in Hc. unfold digit. lia.
Qed.

Lemma int_digits_app (s t : pystr) (ds dt : list Z) :
  int_digits s = Ok ds -> int_digits t = Ok dt -> int_digits (s ++ t) = Ok (ds ++ dt).
Proof.
  revert ds. induction s as [|c s IH]; intros ds Hs Ht; simpl in *.
  - injection Hs as <-. exact Ht.
  - destruct (digit_value c); [|discriminate].
    destruct (int_digits s) as [ds'| |]; simpl in Hs; try discriminate.
    injection Hs as <-. now rewrite (IH ds' eq_refl Ht).
Qed.

Lemma doubled_digit (d : Z) :
  digit d -> Luhn.doubled d = if 9 <? d * 2 then d * 2 - 9 else d * 2.
Proof.
  unfold digit, Luhn.doubled. intro H.
  destruct (9 <? d * 2) eqn:E; [apply Z.ltb_lt in E | apply Z.ltb_ge in E];
    Z.div_mod_to_equations; lia.
Qed.

Lemma total_double_alternate (b : bool) (l : list Z) :
  Forall digit l -> Luhn.total b l = sum (double_alternate b l).
Proof.
  intro H. revert b. induction H as [|d l Hd _ IH]; intro b; simpl; [reflexivity|].
  rewrite IH. destruct b; [now rewrite doubled_digit | reflexivity].
Qed.

Lemma digit_is_decimal (d : Z) : digit d -> is_decimal (48 + d) = true.
Proof.
  unfold digit, is_decimal. intro H. apply andb_true_intro.
  split; apply Z.leb_le; lia.
Qed.

(** The check digit makes the number valid. *)
Lemma checkdigit_valid (base : pystr) :
  decimal_text base ->
  exists c, _luhn_checkdigit base = Ok [c] /\ is_decimal c = true
            /\ Luhn.valid (base ++ [c]).
Proof.
  intro H. destruct (int_digits_decimal base H) as [ds [E D]].
  unfold _luhn_checkdigit. rewrite E. cbn [bind].
  set (s := sum (double_alternate true (rev ds))).
  set (cd := (10 - s mod 10) mod 10).
  assert (digit cd) as Hcd by (unfold digit, cd; Z.div_mod_to_equations; lia).
  rewrite (of_int_digit cd Hcd). exists (48 + cd). split; [reflexivity|]. split.
  - now apply digit_is_decimal.
  - exists (ds ++ [cd]). split.
    + apply int_digits_app; [exact E|]. cbn [int_digits]. unfold digit_value.
      rewrite (digit_is_decimal cd Hcd). cbn [bind]. do 3 f_equal. lia.
    + rewrite rev_app_distr. simpl.
      rewrite (total_double_alternate true (rev ds)) by now apply Forall_rev.
      fold s. unfold cd. Z.div_mod_to_equations; lia.
Qed.

Lemma lookup_existsb {A : Type} (k : pystr) (d : list (pystr * A)) :
  existsb (fun kv => Text.eqb k (fst kv)) d = true <-> lookup k d <> None.
Proof.
  induction d as [|[k' a] d IH]; simpl.
  - split; [discriminate | congruence].
  - destruct (Text.eqb k k'); simpl; [split; [discriminate | reflexivity] | exact IH].
Qed.

Lemma startswith_app (p s : pystr) : startswith p (p ++ s) = true.
Proof. induction p as [|c p IH]; simpl; [reflexivity|]. now rewrite Z.eqb_refl. Qed.


End Card.


Example det_card_amex_k1_s1 :
  Main._det_card Main.default_config (u "s1") (u "k1") (u "amex")
  = Ok (u "3830862226549502").
Proof. vm_compute. reflexivity. Qed.

(** ** The row loop *)

Section RowLoop.

Context {A B : Type} (f : A -> outcome B).

(** The loop that appends to [out_rows] is a map that stops at the first
    row whose turn does not return. *)
Lemma for_each_append (l : list A) (acc : list B) :
  for_each (fun out a => b <- f a ;; Ok (out ++ [b])) l acc
  = (bs <- map_outcome f l ;; Ok (acc ++ bs)).
Proof.
  revert acc. induction l as [|a l IH]; intro acc; simpl.
  - now rewrite app_nil_r.
  - destruct (f a) as [b| |]; simpl; try reflexivity.
    rewrite IH. destruct (map_outcome f l); simpl; try reflexivity.
    now rewrite <- app_assoc.
Qed.

Lemma map_outcome_ok (l : list A) (bs : list B) :
  map_outcome f l = Ok bs <-> Forall2 (fun a b => f a = Ok b) l bs.
Proof.
  revert bs. induction l as [|a l IH]; intro bs; simpl.
  - split; intro H; [injection H as <-; constructor | now inversion H].
  - destruct (f a) as [b| |] eqn:E; simpl.
    + destruct (map_outcome f l) as [bs'| |]; simpl.
      * split; intro H.
        -- injection H as <-. constructor; [exact E | now apply IH].
        -- inversion H; subst. f_equal. f_equal; [congruence|].
           assert (Ok bs' = Ok l') as Q by now apply IH. now injection Q.
      * split; [discriminate|]. intro H. inversion H; subst.
        assert (@Raise (list B) e = Ok l') as Q by now apply IH. discriminate Q.
      * split; [discriminate|]. intro H. inversion H; subst.
        assert (@Diverge (list B) = Ok l') as Q by now apply IH. discriminate Q.
    + split; [discriminate|]. intro H. inversion H; congruence.
    + split; [discriminate|]. intro H. inversion H; congruence.
Qed.

(** Where every turn returns, the loop returns the image of the list. *)
Lemma map_outcome_image (g : A -> B) (l : list A) :
  (forall a, In a l -> f a = Ok (g a)) -> map_outcome f l = Ok (map g l).
Proof.
  induction l as [|a l IH]; intro H; simpl; [reflexivity|].
  rewrite (H a (or_introl eq_refl)). simpl.
  rewrite IH by (intros; apply H; now right). reflexivity.
Qed.

Lemma map_outcome_inv (l : list A) (bs : list B) :
  map_outcome f l = Ok bs ->
  forall a, In a l -> exists b, f a = Ok b.
Proof.
  intro H. apply map_outcome_ok in H.
  induction H as [|a b l bs Hab _ IH]; intros x Hx; [contradiction|].
  destruct Hx as [<-|Hx]; [now exists b | now apply IH].
Qed.

End RowLoop.

(** ** Rows are synthesized one by one *)

Section RowIndependence.

Variables (e : env) (cfg : Main.config) (cols : list pystr).

Lemma generate_rows (rws : list (Z * list value)) (salt : option pystr) (out : DataFrame) :
  Main.generate_synthetic_data e cfg (Frame cols rws) salt = Ok out ->
  forall ir, In ir rws ->
    exists new, Main.synth_row e cfg cols (salt_or_new e salt)
                  (fst ir, combine cols (snd ir)) = Ok (fst ir, new).
Proof.
  unfold Main.generate_synthetic_data. rewrite for_each_append. cbn [columns].
  destruct (map_outcome _ _) as [bs| |] eqn:E; try discriminate. intros _ ir Hin.
  assert (In (fst ir, combine cols (snd ir)) (iterrows (Frame cols rws))) as Hit.
  { unfold iterrows. cbn [columns rows]. apply in_map_iff. now exists ir. }
  destruct (map_outcome_inv _ _ _ E _ Hit) as [[i new] Hb].
  exists new. rewrite Hb. f_equal. f_equal.
  unfold Main.synth_row in Hb. cbn [fst] in Hb.
  destruct (Main.fill _); simpl in Hb; try discriminate. now injection Hb.
Qed.

Lemma generate_image (rws : list (Z * list value)) (salt : option pystr) :
  (forall ir, In ir rws ->
     exists new, Main.synth_row e cfg cols (salt_or_new e salt)
                   (fst ir, combine cols (snd ir)) = Ok (fst ir, new)) ->
  exists out,
    Main.generate_synthetic_data e cfg (Frame cols rws) salt = Ok out
    /\ rows out = map (row_image e cfg cols (salt_or_new e salt)) rws.
Proof.
  intro H. unfold Main.generate_synthetic_data. rewrite for_each_append.
  cbn [columns]. unfold iterrows. cbn [columns rows].
  set (s := salt_or_new e salt) in *.
  rewrite (map_outcome_image (Main.synth_row e cfg cols s)
             (fun a => match Main.synth_row e cfg cols s a with
                       | Ok r => r
                       | _ => a
                       end)).
  2:{ intros a Ha. apply in_map_iff in Ha as [ir [<- Hin]].
      destruct (H ir Hin) as [new Hn]. rewrite Hn. reflexivity. }
  cbn [bind app]. eexists. split; [reflexivity|].
  unfold frame_of. cbn [rows]. rewrite !map_map. apply map_ext_in.
  intros ir Hin. destruct (H ir Hin) as [new Hn]. unfold row_image.
  rewrite Hn. reflexivity.
Qed.


End RowIndependence.


(** ** The run and what it reads from outside *)

Section Determinism.

Lemma salt_given (e : env) (salt : pystr) : salt <> [] -> salt_or_new e (Some salt) = salt.
Proof.
  intro H. unfold salt_or_new. apply eqb_neq in H. now rewrite H.
Qed.

Lemma py_hex_nonempty (n : Z) : py_hex n <> [].
Proof. unfold py_hex. discriminate. Qed.

Lemma salt_fresh (e : env) (salt : option pystr) :
  salt = None \/ salt = Some [] -> salt_or_new e salt = py_hex (getrandbits128 e).
Proof. intros [->| ->]; reflexivity. Qed.

Lemma hex_digits_rev_length (fuel : nat) (n : Z) (k : nat) :
  0 <= n < 16 ^ Z.of_nat k -> (length (hex_digits_rev fuel n) <= k)%nat.
Proof.
  revert n k. induction fuel as [|fuel IH]; intros n k H; cbn [hex_digits_rev length];
    [lia|].
  destruct (n <=? 0) eqn:E; [cbn [length]; lia|]. apply Z.leb_gt in E.
  destruct k as [|k]; [simpl in H; lia|]. cbn [length].
  apply le_n_S. apply IH. rewrite Nat2Z.inj_succ, Z.pow_succ_r in H by lia.
  Z.div_mod_to_equations; lia.
Qed.

(** The salt a run makes for itself: "0x" and at most 32 hexadecimal digits. *)
Lemma fresh_salt_shape (n : Z) :
  0 <= n < 2 ^ 128 ->
  startswith (u "0x") (py_hex n) = true /\ (length (py_hex n) <= 34)%nat.
Proof.
  intro H. unfold py_hex. split; [reflexivity|].
  pose proof (hex_digits_rev_length (S (Z.to_nat (Z.log2 n))) n 32 H) as L.
  rewrite <- length_rev in L. destruct (rev _); cbn [length app u] in *; simpl; lia.
Qed.


(** C6.  Called without a salt, or with the empty one, either function
    runs with the salt [hex(random.getrandbits(128))], "0x" and at most 32
    hexadecimal digits for a draw of 128 bits, and returns what it returns
    when that very salt is passed: a table, and nothing that tells the
    salt. *)
Theorem fresh_salt_is_not_returned (e : env) (df : DataFrame) (salt : option pystr) :
  salt = None \/ salt = Some [] ->
  salt_or_new e salt = py_hex (getrandbits128 e)
  /\ (0 <= getrandbits128 e < 2 ^ 128 ->
      startswith (u "0x") (salt_or_new e salt) = true
      /\ (length (salt_or_new e salt) <= 34)%nat)
  /\ (forall cfg,
       Main.generate_synthetic_data e cfg df salt
       = Main.generate_synthetic_data e cfg df (Some (py_hex (getrandbits128 e))))
  /\ (forall cfg,
       Tokenizer.tokenize_dataset e cfg df salt
       = Tokenizer.tokenize_dataset e cfg df (Some (py_hex (getrandbits128 e)))).
Proof.
  intro H. pose proof (salt_fresh e salt H) as F. split; [exact F|].
  split; [intro R; rewrite F; now apply fresh_salt_shape|]. split; intro cfg.
  - unfold Main.generate_synthetic_data. rewrite F.
    now rewrite (salt_given e _ (py_hex_nonempty _)).
  - unfold Tokenizer.tokenize_dataset, Tokenizer._salt_or_new. rewrite F.
    now rewrite (salt_given e _ (py_hex_nonempty _)).
Qed.

End Determinism.


Lemma fresh_salt_is_not_returned_witness :
  salt_or_new (Env 2026 255) None = u "0xff"
  /\ generate_synthetic_data (Env 2026 255) Sample.ravi None
     = generate_synthetic_data (Env 2026 255) Sample.ravi (Some (u "0xff")).
Proof.
  destruct (fresh_salt_is_not_returned (Env 2026 255) Sample.ravi None
              (or_introl eq_refl)) as [H1 [_ [H2 _]]].
  split; [exact H1 | exact (H2 Main.default_config)].
Defined.


(** C6, as stated, fails: two runs without a salt that drew different
    salts return the same value, so the value returned does not tell the
    salt. *)
Lemma salt_is_not_in_the_result :
  salt_or_new (Env 2026 1) None <> salt_or_new (Env 2026 2) None
  /\ generate_synthetic_data (Env 2026 1) Sample.note None
     = generate_synthetic_data (Env 2026 2) Sample.note None
  /\ tokenize_dataset (Env 2026 1) Sample.note None
     = tokenize_dataset (Env 2026 2) Sample.note None.
Proof. vm_compute. split; [discriminate | split; reflexivity]. Qed.

(** ** Tokenization, column by column *)

Section Columns.

Import Tokenizer.

Lemma nth_set_nth_other {A : Type} (j k : nat) (a d : A) (l : list A) :
  k <> j -> nth k (set_nth j a l) d = nth k l d.
Proof.
  revert j k. induction l as [|b l IH]; intros [|j] [|k] H; simpl; try reflexivity;
    try contradiction. apply IH. congruence.
Qed.

Lemma nth_set_nth_same {A : Type} (j : nat) (a d : A) (l : list A) :
  (j < length l)%nat -> nth j (set_nth j a l) d = a.
Proof.
  revert j. induction l as [|b l IH]; intros [|j] H; simpl in *; try lia;
    [reflexivity|]. apply IH. lia.
Qed.

Lemma length_set_nth {A : Type} (j : nat) (a : A) (l : list A) :
  length (set_nth j a l) = length l.
Proof.
  revert j. induction l as [|b l IH]; intros [|j]; simpl; try reflexivity.
  now rewrite IH.
Qed.

Lemma column_at_set_column_other (j k : nat) (cells : list value) (rws : table) :
  k <> j -> column_at k (set_column j cells rws) = column_at k rws.
Proof.
  intro H. revert cells. induction rws as [|[i vs] rws IH]; intros [|v cells];
    simpl; try reflexivity.
  rewrite IH. f_equal. now apply nth_set_nth_other.
Qed.

Lemma shape_set_column (j : nat) (cells : list value) (rws : table) :
  shape (set_column j cells rws) = shape rws.
Proof.
  revert cells. induction rws as [|[i vs] rws IH]; intros [|v cells]; simpl;
    try reflexivity.
  unfold shape in *. simpl. now rewrite IH, length_set_nth.
Qed.

Lemma column_at_set_column_same (j : nat) (cells : list value) (rws : table) :
  length cells = length rws -> wide j rws ->
  column_at j (set_column j cells rws) = cells.
Proof.
  revert cells. induction rws as [|[i vs] rws IH]; intros [|v cells] Hl Hw;
    simpl in *; try discriminate; [reflexivity|].
  inversion Hw; subst. rewrite IH by (auto; lia).
  f_equal. now apply nth_set_nth_same.
Qed.

Lemma map_outcome_length {A B : Type} (f : A -> outcome B) (l : list A) (bs : list B) :
  map_outcome f l = Ok bs -> length bs = length l.
Proof.
  intro H. apply map_outcome_ok in H. induction H; simpl; congruence.
Qed.

Lemma wide_shape (j : nat) (rws rws' : table) :
  shape rws = shape rws' -> wide j rws -> wide j rws'.
Proof.
  unfold wide, shape. revert rws'.
  induction rws as [|ir rws IH]; intros [|ir' rws'] Hs Hw; simpl in *;
    try discriminate; constructor; inversion Hw; subst.
  - injection Hs as Hhd _. lia.
  - apply IH; [now injection Hs | assumption].
Qed.

Lemma try_rules_other (rules : list rule) (col : pystr) (j k : nat) (rws : table) :
  k <> j -> column_at k (try_rules rules col j rws) = column_at k rws.
Proof.
  intro H. induction rules as [|[cond tr] rules IH]; simpl; [reflexivity|].
  destruct (cond col); [|exact IH].
  destruct (apply_column tr col (column_at j rws)); try exact IH.
  now apply column_at_set_column_other.
Qed.

Lemma try_rules_shape (rules : list rule) (col : pystr) (j : nat) (rws : table) :
  shape (try_rules rules col j rws) = shape rws.
Proof.
  induction rules as [|[cond tr] rules IH]; simpl; [reflexivity|].
  destruct (cond col); [|exact IH].
  destruct (apply_column tr col (column_at j rws)); try exact IH.
  apply shape_set_column.
Qed.

Lemma column_at_length (j : nat) (rws : table) : length (column_at j rws) = length rws.
Proof. apply length_map. Qed.

(** What the rules make of a column depends on that column alone. *)
Lemma try_rules_same (rules : list rule) (col : pystr) (j : nat) (rws rws' : table) :
  column_at j rws = column_at j rws' -> wide j rws -> wide j rws' ->
  column_at j (try_rules rules col j rws) = column_at j (try_rules rules col j rws').
Proof.
  intros Hc Hw Hw'. induction rules as [|[cond tr] rules IH]; simpl; [exact Hc|].
  destruct (cond col); [|exact IH]. rewrite <- Hc.
  destruct (apply_column tr col (column_at j rws)) as [cells| |] eqn:E; try exact IH.
  pose proof (map_outcome_length _ _ _ E) as L. rewrite column_at_length in L.
  rewrite !column_at_set_column_same; auto.
  rewrite L. rewrite <- (column_at_length j rws), Hc. apply column_at_length.
Qed.

Lemma each_column_other (rules : list rule) (cols : list pystr) (j0 k : nat) (rws : table) :
  (k < j0)%nat -> column_at k (each_column rules cols j0 rws) = column_at k rws.
Proof.
  revert j0 rws. induction cols as [|c cols IH]; intros j0 rws H; simpl; [reflexivity|].
  rewrite IH by lia. apply try_rules_other. lia.
Qed.

Lemma each_column_at (rules : list rule) (cols : list pystr) (j0 k : nat) (col : pystr)
  (rws : table) :
  nth_error cols k = Some col -> wide (j0 + k) rws ->
  column_at (j0 + k) (each_column rules cols j0 rws)
  = column_at (j0 + k) (try_rules rules col (j0 + k) rws).
Proof.
  revert j0 k rws. induction cols as [|c cols IH]; intros j0 [|k] rws Hn Hw;
    simpl in Hn; try discriminate.
  - injection Hn as ->. rewrite Nat.add_0_r in *. simpl.
    apply each_column_other. lia.
  - simpl. replace (j0 + S k)%nat with (S j0 + k)%nat in * by lia.
    assert (Hw' : wide (S j0 + k) (try_rules rules c j0 rws)).
    { apply wide_shape with (rws := rws); [|exact Hw].
      symmetry. apply try_rules_shape. }
    rewrite (IH (S j0) k _ Hn Hw').
    apply try_rules_same; [|exact Hw'|exact Hw].
    apply try_rules_other. lia.
Qed.

Lemma try_rules_all_fail (rules : list rule) (col : pystr) (j : nat) (rws : table) :
  (forall r, In r rules -> fst r col = true -> fails_on r col (column_at j rws)) ->
  try_rules rules col j rws = rws.
Proof.
  induction rules as [|[cond tr] rules IH]; intro H; simpl; [reflexivity|].
  assert (IH' : try_rules rules col j rws = rws)
    by (apply IH; intros; apply H; [now right | assumption]).
  destruct (cond col) eqn:C; [|exact IH'].
  destruct (apply_column tr col (column_at j rws)) as [cells| |] eqn:E; try exact IH'.
  exfalso. destruct (H (cond, tr) (or_introl eq_refl) C) as [v [Hin Hv]].
  unfold apply_column in E.
  destruct (map_outcome_inv _ _ _ E v Hin) as [b Hb]. simpl in Hv.
  destruct (tr (py_str v) col) as [s| |] eqn:T; try discriminate.
  now apply (Hv s).
Qed.

Lemma try_rules_skip (r : rule) (rest : list rule) (col : pystr) (j : nat) (rws : table) :
  fails_on r col (column_at j rws) ->
  try_rules (r :: rest) col j rws = try_rules rest col j rws.
Proof.
  destruct r as [cond tr]. intros [v [Hin Hv]]. cbn [try_rules].
  destruct (cond col); [|reflexivity].
  destruct (apply_column tr col (column_at j rws)) as [cells| |] eqn:E; try reflexivity.
  exfalso. unfold apply_column in E.
  destruct (map_outcome_inv _ _ _ E v Hin) as [b Hb]. simpl in Hv.
  destruct (tr (py_str v) col) as [s| |] eqn:T; try discriminate.
  now apply (Hv s).
Qed.

(** C7.  [tokenize_dataset] always returns a table, and what it makes of
    a column is what the rules make of that column alone, whatever happened
    in the columns before it.  A rule that raises on some cell changes no
    cell of the column and leaves the column to the rules after it; when
    each rule that applies to the label raises on some cell, every cell of
    the column keeps its original value. *)
Theorem tokenize_column_wise (e : env) (cfg : config) (df : DataFrame)
  (salt : option pystr) (j : nat) (col : pystr) :
  aligned df -> nth_error (columns df) j = Some col ->
  let rules := transformation_map cfg (salt_or_new e salt) in
  let out := tokenize_dataset e cfg df salt in
  column_at j (rows out) = column_at j (try_rules rules col j (rows df))
  /\ (forall r rest, fails_on r col (column_at j (rows df)) ->
        try_rules (r :: rest) col j (rows df) = try_rules rest col j (rows df))
  /\ ((forall r, In r rules -> fst r col = true -> fails_on r col (column_at j (rows df))) ->
      column_at j (rows out) = column_at j (rows df)).
Proof.
  intros Ha Hn rules out.
  assert (Hw : wide j (rows df)).
  { unfold wide. unfold aligned in Ha. eapply Forall_impl; [|exact Ha].
    intros ir Hl. cbn beta in Hl. rewrite Hl. apply nth_error_Some. congruence. }
  assert (H1 : column_at j (rows out) = column_at j (try_rules rules col j (rows df))).
  { subst out. unfold tokenize_dataset, _salt_or_new. cbn [rows]. fold rules.
    apply (each_column_at rules (columns df) 0 j col (rows df) Hn Hw). }
  split; [exact H1|]. split; [intros; now apply try_rules_skip|].
  intro Hf. rewrite H1.
  now rewrite (try_rules_all_fail rules col j (rows df) Hf).
Qed.

End Columns.

(** A name that cannot be encoded, above one that can. *)
Lemma tokenize_column_wise_witness :
  Tokenizer.column_at 0 (rows (tokenize_dataset (Env 2025 0) Sample.surrogate_alice Sample.s1))
  = [VStr [55296]; VStr (u "Alice")].
Proof.
  apply (proj2 (proj2 (tokenize_column_wise (Env 2025 0) Tokenizer.default_config
                         Sample.surrogate_alice Sample.s1 0 (u "Name")
                         ltac:(repeat constructor) eq_refl))).
  intros r Hin Hc. exists (VStr [55296]). split; [now left|].
  intro s. cbn [In Tokenizer.transformation_map] in Hin.
  repeat (destruct Hin as [<-|Hin]; [first [discriminate Hc | vm_compute; discriminate]|]).
  contradiction.
Defined.

(** C7, as stated, fails: the first cell of the column cannot be encoded
    and raises; the cell after it, which alone is replaced by a name of the
    list, is then left as it is, in the clear. *)
Lemma bad_cell_stops_the_column :
  tokenize_dataset (Env 2025 0) Sample.surrogate_alice Sample.s1 = Sample.surrogate_alice
  /\ tokenize_dataset (Env 2025 0) Sample.alice Sample.s1
     = Frame [u "Name"] [(1, [VStr (u "Kabir")])].
Proof. vm_compute. split; reflexivity. Qed.

(** A rule that raised leaves the column to the rules after it: without
    names to pick from, a column "CardholderName" is tokenized as a card. *)
Example failed_rule_falls_through :
  Tokenizer.tokenize_dataset (Env 2025 0) Sample.no_names Sample.cardholder Sample.s1
  = Frame [u "CardholderName"] [(0, [VStr (u "CARD-fc68015535bb")])].
Proof. vm_compute. reflexivity. Qed.

(** ** Where a run fails *)

Section Failures.

Import Main.

Lemma bind_nd {A B : Type} (m : outcome A) (k : A -> outcome B) :
  m <> Diverge -> (forall a, k a <> Diverge) -> bind m k <> Diverge.
Proof. destruct m; simpl; auto; discriminate. Qed.

Lemma for_each_nd {A S : Type} (body : S -> A -> outcome S) (l : list A) (s : S) :
  (forall s a, body s a <> Diverge) -> for_each body l s <> Diverge.
Proof.
  intro H. revert s. induction l as [|a l IH]; intro s; simpl; [discriminate|].
  apply bind_nd; auto.
Qed.

Lemma sha_int_nd (s : pystr) : sha_int s <> Diverge.
Proof.
  unfold sha_int, sha_hex. destruct (encode s); simpl; [|discriminate].
  destruct (int16 _); discriminate.
Qed.

Lemma pick_nd {A : Type} (l : list A) (r : Z) : pick l r <> Diverge.
Proof.
  unfold pick. destruct l; [discriminate|]. destruct (nth_error _ _); discriminate.
Qed.

Lemma gender_in_nd (g : value) (l : list pystr) : gender_in g l <> Diverge.
Proof. unfold gender_in. destruct (truthy g), g; discriminate. Qed.

Lemma det_name_nd (cfg : config) (salt key : pystr) (g : value) :
  _det_name cfg salt key g <> Diverge.
Proof.
  unfold _det_name, _hashint. apply bind_nd; [apply sha_int_nd|]. intro r.
  apply bind_nd; [apply gender_in_nd|]. intro m.
  apply bind_nd; [|intro; apply pick_nd].
  destruct m; [discriminate|]. apply bind_nd; [apply gender_in_nd | discriminate].
Qed.

Lemma det_city_nd (cfg : config) (salt key : pystr) : _det_city cfg salt key <> Diverge.
Proof.
  unfold _det_city, _hashint. apply bind_nd; [apply sha_int_nd | intro; apply pick_nd].
Qed.

Lemma det_digits_nd (salt key : pystr) (n : Z) : _det_digits salt key n <> Diverge.
Proof.
  unfold _det_digits, _hashint. apply bind_nd; [apply sha_int_nd | discriminate].
Qed.

Lemma when_column_nd (c : ctx) (col : string) (f : unit -> outcome pystr) (new : row) :
  f tt <> Diverge -> when_column c col f new <> Diverge.
Proof.
  intro H. unfold when_column. destruct (mem _ _); [|discriminate].
  apply bind_nd; [exact H | discriminate].
Qed.

(** A step that cannot loop passes a failure of what follows through. *)
Lemma then_raises {A B : Type} (m : outcome A) (k : A -> outcome B) :
  m <> Diverge -> (forall a, exists x, k a = Raise x) -> exists x, bind m k = Raise x.
Proof.
  intros Hm Hk. destruct m as [a|x|]; simpl; [apply Hk | now exists x | contradiction].
Qed.

Lemma det_card_no_visa (cfg : config) (salt key : pystr) :
  lookup (u "visa") (card_brands cfg) = None ->
  _det_card cfg salt key (u "visa") = Raise KeyError.
Proof.
  intro H. unfold _det_card.
  destruct (existsb _ _); now rewrite H.
Qed.

(** A brand map without "visa" makes the body of the loop fail on any row
    of a table that has a [SenderCard] column. *)
Lemma fill_no_visa (c : ctx) :
  lookup (u "visa") (card_brands (c_cfg c)) = None ->
  mem (u "SenderCard") (c_cols c) = true ->
  exists x, fill c = Raise x.
Proof.
  intros Hv Hc. unfold fill.
  apply then_raises;
    [apply for_each_nd; intros; unfold names_step;
     apply bind_nd; [apply det_name_nd | discriminate]|]. intro n1.
  apply then_raises;
    [apply for_each_nd; intros; unfold address_step;
     apply bind_nd; [apply det_city_nd | discriminate]|]. intro n2.
  do 3 (apply then_raises; [apply when_column_nd, det_digits_nd|]; intro).
  unfold when_column at 1. rewrite Hc, (det_card_no_visa _ _ _ Hv).
  now exists KeyError.
Qed.


End Failures.



(** ** Rounding to the nearest number *)

Section Rounding.

Import F64.

Lemma rhe_div_bounds (a b : Z) : 0 < b -> a / b <= rhe_div a b <= a / b + 1.
Proof.
  intro H. unfold rhe_div. destruct (2 * (a mod b) ?= b); [destruct (Z.even _)| |]; lia.
Qed.

Lemma rhe_div_exact (k b : Z) : 0 < b -> rhe_div (k * b) b = k.
Proof.
  intro H. unfold rhe_div. rewrite Z.mod_mul, Z.div_mul by lia.
  assert ((2 * 0 ?= b) = Lt) as -> by (apply Z.compare_lt_iff; lia). reflexivity.
Qed.

Lemma rhe_div_mono (a1 a2 b : Z) : 0 < b -> a1 <= a2 -> rhe_div a1 b <= rhe_div a2 b.
Proof.
  intros Hb H. unfold rhe_div.
  pose proof (Z.div_le_mono a1 a2 b Hb H) as Hq.
  pose proof (Z.mod_pos_bound a1 b Hb) as R1. pose proof (Z.mod_pos_bound a2 b Hb) as R2.
  pose proof (Z.div_mod a1 b ltac:(lia)) as E1. pose proof (Z.div_mod a2 b ltac:(lia)) as E2.
  destruct (Z.eq_dec (a1 / b) (a2 / b)) as [Q|Q].
  - rewrite <- Q in *. assert (a1 mod b <= a2 mod b) by nia.
    destruct (Z.compare_spec (2 * (a1 mod b)) b);
      destruct (Z.compare_spec (2 * (a2 mod b)) b);
      destruct (Z.even (a1 / b)); lia.
  - destruct (2 * (a1 mod b) ?= b); destruct (2 * (a2 mod b) ?= b);
      destruct (Z.even (a1 / b)); destruct (Z.even (a2 / b)); lia.
Qed.

Lemma rhe_div_scale (a b c : Z) : 0 < b -> 0 < c -> rhe_div (a * c) (b * c) = rhe_div a b.
Proof.
  intros Hb Hc. unfold rhe_div.
  rewrite Z.div_mul_cancel_r by lia. rewrite Z.mul_mod_distr_r by lia.
  assert ((2 * (a mod b * c) ?= b * c) = (2 * (a mod b) ?= b)) as ->
    by (destruct (Z.compare_spec (2 * (a mod b * c)) (b * c));
        destruct (Z.compare_spec (2 * (a mod b)) b); try reflexivity; nia).
  reflexivity.
Qed.

Lemma rhe_div_ge (k a b : Z) : 0 < b -> k * b <= a -> k <= rhe_div a b.
Proof.
  intros Hb H. rewrite <- (rhe_div_exact k b Hb). now apply rhe_div_mono.
Qed.

Lemma rhe_div_le (k a b : Z) : 0 < b -> a <= k * b -> rhe_div a b <= k.
Proof.
  intros Hb H. rewrite <- (rhe_div_exact k b Hb). now apply rhe_div_mono.
Qed.

End Rounding.

Section Nearest.

Import F64 Value.

Lemma pow2_pos (k : Z) : 0 <= k -> 0 < 2 ^ k.
Proof. intro H. now apply Z.pow_pos_nonneg. Qed.

Lemma pow2_add (x y : Z) : 0 <= x -> 0 <= y -> 2 ^ (x + y) = 2 ^ x * 2 ^ y.
Proof. intros. now apply Z.pow_add_r. Qed.

Lemma num_pos (a e : Z) : 0 < a -> 0 < num a e.
Proof.
  intro H. unfold num. destruct (0 <=? e) eqn:E; [exact H|].
  apply Z.leb_gt in E. pose proof (pow2_pos (- e) ltac:(lia)). nia.
Qed.

Lemma den_pos (d e : Z) : 0 < d -> 0 < den d e.
Proof.
  intro H. unfold den. destruct (0 <=? e) eqn:E; [|exact H].
  apply Z.leb_le in E. pose proof (pow2_pos e E). nia.
Qed.

Lemma num_mono (a1 a2 e : Z) : a1 <= a2 -> num a1 e <= num a2 e.
Proof.
  intro H. unfold num. destruct (0 <=? e) eqn:E; [exact H|].
  apply Z.leb_gt in E. pose proof (pow2_pos (- e) ltac:(lia)). nia.
Qed.

(** [2^(e+k) <= a/d] says [2^k <= a / (d 2^e)]. *)
Lemma ge_pow2_shift (a d e k : Z) :
  0 < a -> 0 < d -> 0 <= k ->
  (ge_pow2 a d (e + k) = true <-> 2 ^ k * den d e <= num a e).
Proof.
  intros Ha Hd Hk. unfold ge_pow2. rewrite Z.leb_le. unfold num, den.
  pose proof (pow2_pos k Hk) as Pk.
  destruct (0 <=? e) eqn:E; [apply Z.leb_le in E | apply Z.leb_gt in E].
  - destruct (0 <=? e + k) eqn:E'; [|apply Z.leb_gt in E'; lia].
    rewrite (Z.add_comm e k), pow2_add by lia. split; nia.
  - pose proof (pow2_pos (- e) ltac:(lia)) as Pe.
    destruct (0 <=? e + k) eqn:E'; [apply Z.leb_le in E' | apply Z.leb_gt in E'].
    + pose proof (pow2_pos (e + k) E') as Pek.
      assert (2 ^ k = 2 ^ (e + k) * 2 ^ (- e)) as ->
        by (rewrite <- pow2_add by lia; f_equal; lia).
      split; nia.
    + pose proof (pow2_pos (- (e + k)) ltac:(lia)) as Pek.
      assert (2 ^ (- e) = 2 ^ (- (e + k)) * 2 ^ k) as ->
        by (rewrite <- pow2_add by lia; f_equal; lia).
      split; nia.
Qed.

Lemma ge_pow2_anti (a d k k' : Z) :
  0 < a -> 0 < d -> k' <= k -> ge_pow2 a d k = true -> ge_pow2 a d k' = true.
Proof.
  intros Ha Hd Hk H.
  replace k with (k' + (k - k')) in H by lia.
  apply ge_pow2_shift in H; try lia.
  replace k' with (k' + 0) by lia. apply ge_pow2_shift; try lia.
  pose proof (pow2_pos (k - k') ltac:(lia)). pose proof (den_pos d k' Hd).
  change (2 ^ 0) with 1. nia.
Qed.

Lemma ge_pow2_mono (a1 a2 d k : Z) :
  a1 <= a2 -> ge_pow2 a1 d k = true -> ge_pow2 a2 d k = true.
Proof.
  unfold ge_pow2. rewrite !Z.leb_le. intros H H1.
  pose proof (num_mono a1 a2 k H). lia.
Qed.

Lemma ilog2_ratio_spec (a d : Z) :
  0 < a -> 0 < d ->
  ge_pow2 a d (ilog2_ratio a d) = true /\ ge_pow2 a d (ilog2_ratio a d + 1) = false.
Proof.
  intros Ha Hd. unfold ilog2_ratio.
  pose proof (Z.log2_spec a Ha) as La. pose proof (Z.log2_spec d Hd) as Ld.
  pose proof (Z.log2_nonneg a) as Na. pose proof (Z.log2_nonneg d) as Nd.
  set (la := Z.log2 a) in *. set (ld := Z.log2 d) in *. set (l := la - ld).
  assert (Hup : ge_pow2 a d (l + 1) = false).
  { unfold ge_pow2, num, den. apply Z.leb_gt.
    destruct (0 <=? l + 1) eqn:E; [apply Z.leb_le in E | apply Z.leb_gt in E].
    - assert (2 ^ Z.succ la = 2 ^ ld * 2 ^ (l + 1))
        by (rewrite <- pow2_add by lia; f_equal; lia).
      pose proof (pow2_pos (l + 1) E). nia.
    - assert (2 ^ ld = 2 ^ Z.succ la * 2 ^ (- (l + 1)))
        by (rewrite <- pow2_add by lia; f_equal; lia).
      pose proof (pow2_pos (- (l + 1)) ltac:(lia)). nia. }
  assert (Hdown : ge_pow2 a d (l - 1) = true).
  { unfold ge_pow2, num, den. apply Z.leb_le.
    destruct (0 <=? l - 1) eqn:E; [apply Z.leb_le in E | apply Z.leb_gt in E].
    - assert (2 ^ la = 2 ^ Z.succ ld * 2 ^ (l - 1))
        by (rewrite <- pow2_add by lia; f_equal; lia).
      pose proof (pow2_pos (l - 1) E). nia.
    - assert (2 ^ Z.succ ld = 2 ^ la * 2 ^ (- (l - 1)))
        by (rewrite <- pow2_add by lia; f_equal; lia).
      pose proof (pow2_pos (- (l - 1)) ltac:(lia)). nia. }
  destruct (ge_pow2 a d l) eqn:G.
  - split; [exact G | exact Hup].
  - split; [exact Hdown|]. now replace (l - 1 + 1) with l by lia.
Qed.

Lemma ilog2_ratio_mono (a1 a2 d : Z) :
  0 < a1 <= a2 -> 0 < d -> ilog2_ratio a1 d <= ilog2_ratio a2 d.
Proof.
  intros Ha Hd.
  destruct (ilog2_ratio_spec a1 d ltac:(lia) Hd) as [G1 _].
  destruct (ilog2_ratio_spec a2 d ltac:(lia) Hd) as [_ U2].
  destruct (Z_le_gt_dec (ilog2_ratio a1 d) (ilog2_ratio a2 d)) as [|C]; [assumption|].
  exfalso. apply (ge_pow2_anti a1 d _ (ilog2_ratio a2 d + 1)) in G1; try lia.
  apply (ge_pow2_mono a1 a2) in G1; [congruence | lia].
Qed.

Lemma nearest_eq (a d : Z) : nearest a d = (rhe_div (num a (expo a d)) (den d (expo a d)), expo a d).
Proof. reflexivity. Qed.

Lemma mantissa_upper (a d e k : Z) :
  0 < a -> 0 < d -> 0 <= k -> ilog2_ratio a d + 1 <= e + k ->
  rhe_div (num a e) (den d e) <= 2 ^ k.
Proof.
  intros Ha Hd Hk H. apply rhe_div_le; [now apply den_pos|].
  destruct (ilog2_ratio_spec a d Ha Hd) as [_ U].
  destruct (Z_le_gt_dec (num a e) (2 ^ k * den d e)) as [|C]; [assumption|].
  exfalso. assert (ge_pow2 a d (e + k) = true) as G by (apply ge_pow2_shift; lia).
  apply (ge_pow2_anti a d _ (ilog2_ratio a d + 1)) in G; try lia. congruence.
Qed.

Lemma mantissa_lower (a d e k : Z) :
  0 < a -> 0 < d -> 0 <= k -> e + k <= ilog2_ratio a d ->
  2 ^ k <= rhe_div (num a e) (den d e).
Proof.
  intros Ha Hd Hk H. apply rhe_div_ge; [now apply den_pos|].
  destruct (ilog2_ratio_spec a d Ha Hd) as [G _].
  apply (ge_pow2_anti a d _ (e + k)) in G; try lia.
  now apply ge_pow2_shift in G.
Qed.

Lemma nearest_range (a d : Z) :
  0 < a -> 0 < d ->
  let '(m, e) := nearest a d in
  -1074 <= e /\ 0 <= m <= 2 ^ 53 /\ (-1074 < e -> 2 ^ 52 <= m).
Proof.
  intros Ha Hd. rewrite nearest_eq. unfold expo.
  set (L := ilog2_ratio a d). set (e := Z.max (-1074) (L - 52)).
  split; [lia|]. split; [split|].
  - pose proof (rhe_div_bounds (num a e) (den d e) (den_pos d e Hd)).
    pose proof (Z.div_pos (num a e) (den d e)
                  ltac:(pose proof (num_pos a e Ha); lia) (den_pos d e Hd)). lia.
  - apply mantissa_upper; fold L; lia.
  - intro He. apply mantissa_lower; fold L; lia.
Qed.

Lemma nearest_mono (a1 a2 d : Z) :
  0 < a1 <= a2 -> 0 < d ->
  let '(m1, e1) := nearest a1 d in
  let '(m2, e2) := nearest a2 d in
  e1 <= e2 /\ m1 <= m2 * 2 ^ (e2 - e1).
Proof.
  intros Ha Hd. rewrite !nearest_eq.
  pose proof (ilog2_ratio_mono a1 a2 d Ha Hd) as HL.
  unfold expo.
  set (L1 := ilog2_ratio a1 d) in *. set (L2 := ilog2_ratio a2 d) in *.
  set (e1 := Z.max (-1074) (L1 - 52)). set (e2 := Z.max (-1074) (L2 - 52)).
  assert (e1 <= e2) as He by lia. split; [exact He|].
  destruct (Z.eq_dec e1 e2) as [E|E].
  - rewrite <- E, Z.sub_diag. change (2 ^ 0) with 1. rewrite Z.mul_1_r.
    apply rhe_div_mono; [now apply den_pos | apply num_mono; lia].
  - assert (rhe_div (num a1 e1) (den d e1) <= 2 ^ (52 + (e2 - e1)))
      by (apply mantissa_upper; fold L1; lia).
    assert (2 ^ 52 <= rhe_div (num a2 e2) (den d e2))
      by (apply mantissa_lower; fold L2; lia).
    rewrite pow2_add in H by lia. pose proof (pow2_pos (e2 - e1) ltac:(lia)). nia.
Qed.

End Nearest.

(** ** The order of numbers and [round(x, 2)] *)

Section Order.

Import F64 Value.

Lemma dy_compare_scale (z1 e1 z2 e2 E : Z) :
  E <= e1 -> E <= e2 ->
  dy_compare z1 e1 z2 e2 = (z1 * 2 ^ (e1 - E) ?= z2 * 2 ^ (e2 - E)).
Proof.
  intros H1 H2. unfold dy_compare. set (e := Z.min e1 e2).
  assert (2 ^ (e1 - E) = 2 ^ (e1 - e) * 2 ^ (e - E)) as ->
    by (rewrite <- pow2_add by lia; f_equal; lia).
  assert (2 ^ (e2 - E) = 2 ^ (e2 - e) * 2 ^ (e - E)) as ->
    by (rewrite <- pow2_add by lia; f_equal; lia).
  pose proof (pow2_pos (e - E) ltac:(lia)) as P.
  destruct (Z.compare_spec (z1 * 2 ^ (e1 - e)) (z2 * 2 ^ (e2 - e)));
    destruct (Z.compare_spec (z1 * (2 ^ (e1 - e) * 2 ^ (e - E)))
                             (z2 * (2 ^ (e2 - e) * 2 ^ (e - E))));
    try reflexivity; nia.
Qed.

Lemma dy_compare_zero_l (z e : Z) : dy_compare 0 0 z e = (0 ?= z).
Proof.
  unfold dy_compare. pose proof (pow2_pos (e - Z.min 0 e) ltac:(lia)).
  rewrite Z.mul_0_l.
  destruct (Z.compare_spec 0 (z * 2 ^ (e - Z.min 0 e)));
    destruct (Z.compare_spec 0 z); try reflexivity; nia.
Qed.

Lemma dy_compare_zero_r (z e : Z) : dy_compare z e 0 0 = (z ?= 0).
Proof.
  unfold dy_compare. pose proof (pow2_pos (e - Z.min e 0) ltac:(lia)).
  rewrite Z.mul_0_l.
  destruct (Z.compare_spec (z * 2 ^ (e - Z.min e 0)) 0);
    destruct (Z.compare_spec z 0); try reflexivity; nia.
Qed.

Lemma compare_dyadic (x y : float) (zx ex zy ey : Z) :
  dyadic x = Some (zx, ex) -> dyadic y = Some (zy, ey) ->
  compare x y = Some (dy_compare zx ex zy ey).
Proof.
  destruct x as [sx|sx| |sx mx ex']; destruct y as [sy|sy| |sy my ey'];
    simpl; try discriminate; intros Hx Hy;
    injection Hx as Hzx Hex; injection Hy as Hzy Hey; subst.
  - reflexivity.
  - rewrite dy_compare_zero_l. now destruct sy.
  - rewrite dy_compare_zero_r. now destruct sx.
  - reflexivity.
Qed.

Lemma ltb_irrefl (x : float) : ltb x x = false.
Proof.
  unfold ltb. destruct x as [s|s| |s m e]; simpl; try reflexivity.
  - now destruct s.
  - unfold dy_compare. now rewrite Z.compare_refl.
Qed.

Lemma ltb_below_neg_inf (x : float) : ltb x (S754_infinity true) = false.
Proof. unfold ltb. destruct x as [s|s| |s m e]; simpl; try reflexivity; now destruct s. Qed.

Lemma ltb_pos_inf_below (x : float) : ltb (S754_infinity false) x = false.
Proof. unfold ltb. destruct x as [s|s| |s m e]; simpl; try reflexivity; now destruct s. Qed.

Lemma pack_eq (s : bool) (m e : Z) :
  pack s m e =
  if m <=? 0 then S754_zero s
  else if 971 <? snd (norm m e) then S754_infinity s
       else S754_finite s (Z.to_pos (fst (norm m e))) (snd (norm m e)).
Proof. unfold pack, norm. destruct (m <=? 0); [reflexivity|]. now destruct (m =? 2 ^ 53). Qed.

Lemma norm_spec (m e : Z) :
  0 < m <= 2 ^ 53 -> (-1074 < e -> 2 ^ 52 <= m) ->
  let '(m', e') := norm m e in
  e <= e' /\ m = m' * 2 ^ (e' - e) /\ 0 < m' < 2 ^ 53 /\ (-1074 < e' -> 2 ^ 52 <= m').
Proof.
  intros Hm Hn. unfold norm. destruct (m =? 2 ^ 53) eqn:E.
  - apply Z.eqb_eq in E. subst m. replace (e + 1 - e) with 1 by lia.
    change (2 ^ 53) with 9007199254740992 in *. change (2 ^ 52) with 4503599627370496.
    change (2 ^ 1) with 2. lia.
  - apply Z.eqb_neq in E. rewrite Z.sub_diag. change (2 ^ 0) with 1. lia.
Qed.

(** Two rounded pairs in order give numbers in order, with either sign. *)
Lemma pack_le (m1 e1 m2 e2 : Z) :
  0 <= m1 <= 2 ^ 53 -> (-1074 < e1 -> 2 ^ 52 <= m1) ->
  0 <= m2 <= 2 ^ 53 -> (-1074 < e2 -> 2 ^ 52 <= m2) ->
  e1 <= e2 -> m1 <= m2 * 2 ^ (e2 - e1) ->
  ltb (pack false m2 e2) (pack false m1 e1) = false
  /\ ltb (pack true m1 e1) (pack true m2 e2) = false.
Proof.
  intros R1 N1 R2 N2 He Hle. rewrite !pack_eq.
  destruct (m1 <=? 0) eqn:Z1.
  - destruct (m2 <=? 0); [split; reflexivity|].
    destruct (971 <? snd (norm m2 e2)); split; reflexivity.
  - apply Z.leb_gt in Z1.
    pose proof (pow2_pos (e2 - e1) ltac:(lia)) as P21.
    assert (0 < m2) as Z2 by nia.
    destruct (m2 <=? 0) eqn:Z2'; [apply Z.leb_le in Z2'; lia|].
    pose proof (norm_spec m1 e1 ltac:(lia) N1) as S1.
    pose proof (norm_spec m2 e2 ltac:(lia) N2) as S2.
    destruct (norm m1 e1) as [m1' e1']. destruct (norm m2 e2) as [m2' e2'].
    cbn [fst snd].
    destruct S1 as [E1 [V1 [B1 L1]]]. destruct S2 as [E2 [V2 [B2 L2]]].
    assert (Hord : m1' * 2 ^ (e1' - e1) <= m2' * 2 ^ (e2' - e1)).
    { assert (2 ^ (e2' - e1) = 2 ^ (e2' - e2) * 2 ^ (e2 - e1)) as ->
        by (rewrite <- pow2_add by lia; f_equal; lia). lia. }
    destruct (971 <? e1') eqn:O1; [apply Z.ltb_lt in O1 | apply Z.ltb_ge in O1].
    + assert (971 < e2') as O2.
      { destruct (Z_lt_le_dec 971 e2') as [|C]; [assumption|]. exfalso.
        specialize (L1 ltac:(lia)).
        assert (2 ^ (e1' - e1) = 2 ^ (e1' - e2' - 1) * (2 ^ 1 * 2 ^ (e2' - e1))) as Q
          by (rewrite <- !pow2_add by lia; f_equal; lia).
        change (2 ^ 1) with 2 in Q.
        pose proof (pow2_pos (e1' - e2' - 1) ltac:(lia)).
        pose proof (pow2_pos (e2' - e1) ltac:(lia)).
        rewrite Q in Hord.
        change (2 ^ 53) with (2 * 2 ^ 52) in B2. nia. }
      apply Z.ltb_lt in O2. rewrite O2. split; reflexivity.
    + destruct (971 <? e2'); [split; reflexivity|].
      unfold ltb. cbn [compare signed]. rewrite !Z2Pos.id by lia.
      rewrite (dy_compare_scale m2' e2' m1' e1' e1) by lia.
      replace (Z.neg (Z.to_pos m1')) with (- m1') by (destruct m1'; simpl; lia).
      replace (Z.neg (Z.to_pos m2')) with (- m2') by (destruct m2'; simpl; lia).
      rewrite (dy_compare_scale (- m1') e1' (- m2') e2' e1) by lia.
      split.
      * destruct (Z.compare_spec (m2' * 2 ^ (e2' - e1)) (m1' * 2 ^ (e1' - e1)));
          try reflexivity; lia.
      * destruct (Z.compare_spec (- m1' * 2 ^ (e1' - e1)) (- m2' * 2 ^ (e2' - e1)));
          try reflexivity; lia.
Qed.

Lemma pack_sign (m1 e1 m2 e2 : Z) :
  ltb (pack false m2 e2) (pack true m1 e1) = false.
Proof.
  rewrite !pack_eq. unfold ltb.
  destruct (m2 <=? 0), (m1 <=? 0); cbn [compare]; try reflexivity;
    try (destruct (971 <? snd (norm m2 e2)); reflexivity);
    try (destruct (971 <? snd (norm m1 e1)); reflexivity).
  destruct (971 <? snd (norm m2 e2)), (971 <? snd (norm m1 e1)); cbn [compare];
    try reflexivity.
  cbn [signed]. unfold dy_compare.
  set (E := Z.min _ _).
  pose proof (pow2_pos (snd (norm m2 e2) - E) ltac:(subst E; lia)).
  pose proof (pow2_pos (snd (norm m1 e1) - E) ltac:(subst E; lia)).
  destruct (Z.compare_spec (Z.pos (Z.to_pos (fst (norm m2 e2))) * 2 ^ (snd (norm m2 e2) - E))
              (Z.neg (Z.to_pos (fst (norm m1 e1))) * 2 ^ (snd (norm m1 e1) - E)));
    try reflexivity; nia.
Qed.

Lemma ltb_zero_pack (s s' : bool) (m e : Z) :
  ltb (pack false m e) (S754_zero s) = false /\ ltb (S754_zero s) (pack true m e) = false.
Proof.
  rewrite !pack_eq. unfold ltb.
  destruct (m <=? 0); [split; reflexivity|].
  destruct (971 <? snd (norm m e)); split; reflexivity.
Qed.

(** Reading a quotient as a number is monotone in the numerator. *)
Lemma of_ratio_mono (s1 s2 : bool) (n1 n2 d : Z) :
  0 < d -> n1 <= n2 -> ltb (of_ratio s2 n2 d) (of_ratio s1 n1 d) = false.
Proof.
  intros Hd H. unfold of_ratio.
  destruct (Z.eqb_spec n1 0) as [Z1|Z1]; destruct (Z.eqb_spec n2 0) as [Z2|Z2].
  - reflexivity.
  - destruct (nearest (Z.abs n2) d) as [m2 e2].
    destruct (Z.ltb_spec n2 0); [lia|]. apply (ltb_zero_pack s1 s1).
  - destruct (nearest (Z.abs n1) d) as [m1 e1].
    destruct (Z.ltb_spec n1 0); [|lia]. apply (ltb_zero_pack s2 s2).
  - pose proof (nearest_range (Z.abs n1) d ltac:(lia) Hd) as R1.
    pose proof (nearest_range (Z.abs n2) d ltac:(lia) Hd) as R2.
    destruct (Z.ltb_spec n1 0) as [S1|S1]; destruct (Z.ltb_spec n2 0) as [S2|S2].
    + pose proof (nearest_mono (Z.abs n2) (Z.abs n1) d ltac:(lia) Hd) as M.
      destruct (nearest (Z.abs n1) d) as [m1 e1].
      destruct (nearest (Z.abs n2) d) as [m2 e2].
      apply (pack_le m2 e2 m1 e1); tauto.
    + destruct (nearest (Z.abs n1) d) as [m1 e1].
      destruct (nearest (Z.abs n2) d) as [m2 e2]. apply pack_sign.
    + lia.
    + pose proof (nearest_mono (Z.abs n1) (Z.abs n2) d ltac:(lia) Hd) as M.
      destruct (nearest (Z.abs n1) d) as [m1 e1].
      destruct (nearest (Z.abs n2) d) as [m2 e2].
      apply (pack_le m1 e1 m2 e2); tauto.
Qed.

Lemma hundredths_scaled (z e E : Z) :
  E <= e -> E <= 0 -> hundredths z e = rhe_div (100 * z * 2 ^ (e - E)) (2 ^ (- E)).
Proof.
  intros H1 H2. unfold hundredths.
  pose proof (pow2_pos (- E) ltac:(lia)) as PE.
  destruct (0 <=? e) eqn:S; [apply Z.leb_le in S | apply Z.leb_gt in S].
  - assert (2 ^ (e - E) = 2 ^ e * 2 ^ (- E)) as ->
      by (rewrite <- pow2_add by lia; f_equal; lia).
    rewrite Z.mul_assoc. now rewrite rhe_div_exact.
  - assert (2 ^ (- E) = 2 ^ (- e) * 2 ^ (e - E)) as ->
      by (rewrite <- pow2_add by lia; f_equal; lia).
    rewrite rhe_div_scale; [reflexivity | | ]; apply pow2_pos; lia.
Qed.

Lemma hundredths_mono (z1 e1 z2 e2 : Z) :
  dy_compare z1 e1 z2 e2 <> Gt -> hundredths z1 e1 <= hundredths z2 e2.
Proof.
  intro H. set (E := Z.min (Z.min e1 e2) 0).
  rewrite (hundredths_scaled z1 e1 E), (hundredths_scaled z2 e2 E) by lia.
  rewrite (dy_compare_scale z1 e1 z2 e2 E) in H by lia.
  apply rhe_div_mono; [apply pow2_pos; lia|].
  destruct (Z.compare_spec (z1 * 2 ^ (e1 - E)) (z2 * 2 ^ (e2 - E))); try lia.
  contradiction.
Qed.

Lemma round2_dyadic (x : float) (z e : Z) :
  dyadic x = Some (z, e) -> round2 x = of_ratio (sign_of x) (hundredths z e) 100.
Proof.
  destruct x as [s|s| |s m e']; simpl; try discriminate; intro H; injection H as <- <-.
  - reflexivity.
  - reflexivity.
Qed.

(** Rounding to two decimals is monotone from a value it leaves as it is. *)
Lemma round2_above (f y : float) :
  round2 f = f -> ltb f y = true -> ltb (round2 y) f = false.
Proof.
  intros Hf Hy.
  destruct (dyadic f) as [[zf ef]|] eqn:Df; destruct (dyadic y) as [[zy ey]|] eqn:Dy.
  - rewrite <- Hf. rewrite (round2_dyadic f zf ef Df), (round2_dyadic y zy ey Dy).
    apply of_ratio_mono; [lia|]. apply hundredths_mono.
    unfold ltb in Hy. rewrite (compare_dyadic f y zf ef zy ey Df Dy) in Hy.
    destruct (dy_compare zf ef zy ey); discriminate.
  - destruct y as [s|[|]| |s m e]; try discriminate Dy.
    + destruct f as [s'|s'| |s' m' e']; try discriminate Df; discriminate Hy.
    + apply ltb_pos_inf_below.
    + unfold ltb in Hy. destruct f as [s'|s'| |s' m' e']; try discriminate Df; discriminate Hy.
  - destruct f as [s|[|]| |s m e]; try discriminate Df.
    + apply ltb_below_neg_inf.
    + destruct y as [s'|s'| |s' m' e']; try discriminate Dy; discriminate Hy.
    + discriminate Hy.
  - destruct f as [s|[|]| |s m e]; try discriminate Df.
    + apply ltb_below_neg_inf.
    + destruct y as [s'|[|]| |s' m' e']; try discriminate Dy; discriminate Hy.
    + discriminate Hy.
Qed.

Lemma of_ratio_not_nan (s : bool) (n d : Z) : of_ratio s n d <> S754_nan.
Proof.
  unfold of_ratio. destruct (n =? 0); [discriminate|].
  destruct (nearest (Z.abs n) d) as [m e]. rewrite pack_eq.
  destruct (m <=? 0); [discriminate|].
  destruct (971 <? snd (norm m e)); discriminate.
Qed.

(** What is not above a number is below whatever that number is below. *)
Lemma lt_of_not_gt (x c y : float) :
  ltb c x = false -> ltb c y = true -> x <> S754_nan -> ltb x y = true.
Proof.
  intros Hcx Hcy Hx.
  destruct (dyadic x) as [[zx ex]|] eqn:Dx; destruct (dyadic c) as [[zc ec]|] eqn:Dc;
    destruct (dyadic y) as [[zy ey]|] eqn:Dy.
  1: { unfold ltb in *.
    rewrite (compare_dyadic c x zc ec zx ex Dc Dx) in Hcx.
    rewrite (compare_dyadic c y zc ec zy ey Dc Dy) in Hcy.
    rewrite (compare_dyadic x y zx ex zy ey Dx Dy).
    set (E := Z.min (Z.min ex ec) ey).
    rewrite (dy_compare_scale zc ec zx ex E) in Hcx by lia.
    rewrite (dy_compare_scale zc ec zy ey E) in Hcy by lia.
    rewrite (dy_compare_scale zx ex zy ey E) by lia.
    destruct (Z.compare_spec (zc * 2 ^ (ec - E)) (zx * 2 ^ (ex - E))); try discriminate;
      destruct (Z.compare_spec (zc * 2 ^ (ec - E)) (zy * 2 ^ (ey - E))); try discriminate;
      destruct (Z.compare_spec (zx * 2 ^ (ex - E)) (zy * 2 ^ (ey - E)));
      try reflexivity; lia. }
  all: destruct x as [sx|sx| |sx mx ex'], c as [sc|sc| |sc mc ec'], y as [sy|sy| |sy my ey'];
    try discriminate Dx; try discriminate Dc; try discriminate Dy;
    try (exfalso; apply Hx; reflexivity);
    unfold ltb, compare in *;
    repeat match goal with b : bool |- _ => destruct b end;
    try reflexivity; try discriminate Hcx; try discriminate Hcy.
Qed.

(** The clamped and rounded amount is not below a floor of two decimals. *)
Lemma round2_max_not_below (floor y : float) :
  round2 floor = floor -> ltb (round2 (max floor y)) floor = false.
Proof.
  intro Hf. unfold max, gtb. destruct (ltb floor y) eqn:G.
  - now apply round2_above.
  - rewrite Hf. apply ltb_irrefl.
Qed.

End Order.

(** ** The fraud label *)

Section Fraud.

Import Main.

Lemma get_setitem_same (k : pystr) (v d : value) (r : row) :
  get k (setitem k v r) d = v.
Proof.
  induction r as [|[k' w] r IH]; simpl.
  - now rewrite eqb_refl.
  - destruct (Text.eqb k k') eqn:E; simpl; rewrite E; [reflexivity | exact IH].
Qed.

Lemma get_setitem_other (c k : pystr) (v d : value) (r : row) :
  Text.eqb c k = false -> get c (setitem k v r) d = get c r d.
Proof.
  intro H. induction r as [|[k' w] r IH]; simpl.
  - now rewrite H.
  - destruct (Text.eqb k k') eqn:E; simpl.
    + apply eqb_eq in E. subst k'. now rewrite H.
    + now rewrite IH.
Qed.

Lemma has_setitem_other (c k : pystr) (v : value) (r : row) :
  Text.eqb c k = false -> has c (setitem k v r) = has c r.
Proof.
  intro H. unfold has, mem. induction r as [|[k' w] r IH]; simpl.
  - now rewrite H.
  - destruct (Text.eqb k k') eqn:E; simpl; [reflexivity | now rewrite IH].
Qed.

Lemma next32_range (r : MT.state) : 0 <= fst (MT.next32 r) < 4294967296.
Proof.
  unfold MT.next32. cbv zeta. cbn [fst]. unfold MT.w32, Sha256.w32.
  apply Z.mod_pos_bound. reflexivity.
Qed.

(** The draw is a number of [0, 1). *)
Lemma random53_range (r : MT.state) : 0 <= fst (MT.random53 r) < 2 ^ 53.
Proof.
  unfold MT.random53.
  pose proof (next32_range r) as Ha.
  destruct (MT.next32 r) as [a r1].
  pose proof (next32_range r1) as Hb.
  destruct (MT.next32 r1) as [b r2].
  cbn [fst] in *.
  rewrite !Z.shiftr_div_pow2 by lia.
  change (2 ^ 5) with 32. change (2 ^ 6) with 64. change (2 ^ 53) with 9007199254740992.
  Z.div_mod_to_equations. lia.
Qed.

Lemma random_range (r : MT.state) :
  F64.ltb (random r) (S754_zero false) = false /\ F64.ltb (random r) (F64.lit 1 1) = true.
Proof.
  pose proof (random53_range r) as R. unfold random. split.
  - apply (of_ratio_mono false false 0 (fst (MT.random53 r)) (2 ^ 53)); lia.
  - apply (lt_of_not_gt _ (F64.of_ratio false (2 ^ 53 - 1) (2 ^ 53))).
    + apply of_ratio_mono; lia.
    + vm_compute. reflexivity.
    + apply of_ratio_not_nan.
Qed.

(** The last step of the body reads the row it is given and changes its
    label alone. *)
Lemma fill_ends_with_label (c : ctx) (out : row) :
  fill c = Ok out -> exists new, fraud_step c new = Ok out.
Proof.
  unfold fill. intro H.
  repeat match type of H with
         | bind ?m _ = Ok _ =>
             let E := fresh "E" in
             destruct m eqn:E; cbn [bind] in H; try discriminate H; clear E
         end.
  eauto.
Qed.

(** C4.  Where the generator can be seeded, the amount in the row under
    construction converts to a float and the year of its account creation
    date can be read, the label is 0 or 1, and 1 exactly when the draw, a
    number of [0, 1), is below the clamped probability.  The amount and the
    year are those of the row as it is returned, the perturbed amount and
    the synthesized date: for the row of the scenario, in 2025 and with salt
    "s1", these are 7169.87 and 2022-02-16, the probability is 0.10 and the
    label 0. *)
Theorem fraud_label_rule (c : ctx) (new : row) (r : MT.state) (amt : F64.float)
  (is_new : bool) :
  mem (u "Fraud") (c_cols c) = true ->
  (_rng (c_salt c) (u "fraud|" ++ txn_key c) = Ok r ->
   py_float (amount_read new) = Ok amt ->
   new_account (c_env c) new = Ok is_new ->
   exists label,
     fraud_step c new = Ok (setitem (u "Fraud") (VInt label) new)
     /\ (label = 0 \/ label = 1)
     /\ (label = 1 <->
         F64.ltb (random r) (claimed_probability (fraud (c_cfg c)) amt is_new) = true)
     /\ F64.ltb (random r) (S754_zero false) = false
     /\ F64.ltb (random r) (F64.lit 1 1) = true)
  /\ (forall out,
        fill c = Ok out ->
        exists r' amt' is_new' label,
          _rng (c_salt c) (u "fraud|" ++ txn_key c) = Ok r'
          /\ py_float (amount_read out) = Ok amt'
          /\ new_account (c_env c) out = Ok is_new'
          /\ get (u "Fraud") out VNone = VInt label
          /\ (label = 0 \/ label = 1)
          /\ (label = 1 <->
              F64.ltb (random r')
                (claimed_probability (fraud (c_cfg c)) amt' is_new') = true))
  /\ generate_synthetic_data (Env 2025 0) default_config scenario (Some (u "s1"))
     = Ok (Frame (columns scenario)
             [(0, [VStr (u "Leo"); VStr (u "839212142341"); VFloat (F64.lit 716987 100);
                   VStr (u "2022-02-16"); VInt 0])])
  /\ claimed_probability default_fraud (F64.lit 716987 100) false = F64.lit 1 10.
Proof.
  intro Hc.
  assert (Step : forall new r amt is_new,
    _rng (c_salt c) (u "fraud|" ++ txn_key c) = Ok r ->
    py_float (amount_read new) = Ok amt ->
    new_account (c_env c) new = Ok is_new ->
    exists label,
      fraud_step c new = Ok (setitem (u "Fraud") (VInt label) new)
      /\ (label = 0 \/ label = 1)
      /\ (label = 1 <->
          F64.ltb (random r) (claimed_probability (fraud (c_cfg c)) amt is_new) = true)).
  { clear new r amt is_new. intros new r amt is_new Hr Ha Hn.
    unfold fraud_step. rewrite Hc, Hr. cbn [bind]. rewrite Ha. cbn [bind].
    rewrite Hn. cbn [bind].
    change (fraud_probability (fraud (c_cfg c)) amt is_new)
      with (claimed_probability (fraud (c_cfg c)) amt is_new).
    destruct (F64.ltb (random r) (claimed_probability (fraud (c_cfg c)) amt is_new)).
    - exists 1. repeat split; auto.
    - exists 0. repeat split; auto; discriminate. }
  split; [|split; [|split; vm_compute; reflexivity]].
  - intros Hr Ha Hn. destruct (Step new r amt is_new Hr Ha Hn) as [l [H1 [H2 H3]]].
    exists l. pose proof (random_range r). tauto.
  - intros out Hfill. destruct (fill_ends_with_label c out Hfill) as [n Hn].
    pose proof Hn as Hn'. unfold fraud_step in Hn'. rewrite Hc in Hn'.
    destruct (_rng (c_salt c) (u "fraud|" ++ txn_key c)) as [r'| |] eqn:Hr;
      try discriminate Hn'. cbn [bind] in Hn'.
    destruct (py_float (amount_read n)) as [amt'| |] eqn:Ha; try discriminate Hn'.
    cbn [bind] in Hn'.
    destruct (new_account (c_env c) n) as [is_new'| |] eqn:Hi; try discriminate Hn'.
    clear Hn'.
    destruct (Step n r' amt' is_new' eq_refl Ha Hi) as [l [H1 [H2 H3]]].
    rewrite H1 in Hn. injection Hn as <-.
    exists r', amt', is_new', l. split; [reflexivity|].
    assert (Ea : amount_read (setitem (u "Fraud") (VInt l) n) = amount_read n)
      by (unfold amount_read; now rewrite get_setitem_other).
    assert (Ei : new_account (c_env c) (setitem (u "Fraud") (VInt l) n)
                 = new_account (c_env c) n)
      by (unfold new_account; now rewrite has_setitem_other, get_setitem_other).
    rewrite Ea, Ei, get_setitem_same. tauto.
Qed.

End Fraud.

(** The draw of the label of the transaction "0" under salt "s1":
    0.4688098679980385. *)
Lemma draw_s1_fraud_0 :
  first_draw (u "s1") (u "fraud|" ++ u "0")
  = Ok (F64.of_ratio false 4222663893647155 (2 ^ 53)).
Proof. vm_compute. reflexivity. Qed.

Lemma first_draw_inv (salt key : pystr) (d : F64.float) :
  first_draw salt key = Ok d ->
  exists r, Main._rng salt key = Ok r /\ Main.random r = d.
Proof.
  unfold first_draw. destruct (Main._rng salt key) as [r| |]; try discriminate.
  cbn [bind]. intro H. exists r. split; [reflexivity | congruence].
Qed.

(** The label of a row whose amount is 9000 and whose account is new,
    for the transaction key "0" under salt "s1". *)
Lemma fraud_label_rule_witness :
  Main.fraud_step Sample.label_ctx Sample.label_row
  = Ok (setitem (u "Fraud") (VInt 1) Sample.label_row).
Proof.
  destruct (first_draw_inv _ _ _ draw_s1_fraud_0) as [r [Hr D]].
  destruct (proj1 (fraud_label_rule Sample.label_ctx Sample.label_row r
                     (F64.lit 9000 1) true eq_refl) Hr eq_refl eq_refl)
    as [label [Hstep [_ [Hiff _]]]].
  rewrite Hstep. do 3 f_equal. apply Hiff. rewrite D. vm_compute. reflexivity.
Defined.

(** C4, as stated, fails on the row of the scenario: in 2025 its date
    2024-01-01 is not before last year and its amount 9000 is above 8000,
    so that the probability would be 0.10 + 0.25 + 0.15 = 0.50 and, the draw
    being below 0.50, the label 1.  The label is 0: the amount compared is
    the perturbed one, 7169.87, and the year that of the synthesized date,
    2022, which leaves the probability at 0.10, below the draw. *)
Lemma scenario_label_is_not_drawn_against_one_half :
  generate_synthetic_data (Env 2025 0) scenario (Some (u "s1"))
  = Ok (Frame (columns scenario)
          [(0, [VStr (u "Leo"); VStr (u "839212142341"); VFloat (F64.lit 716987 100);
                VStr (u "2022-02-16"); VInt 0])])
  /\ claimed_probability Main.default_fraud (F64.lit 9000 1) true = F64.lit 1 2
  /\ exists d,
       first_draw (u "s1") (u "fraud|" ++ u "0") = Ok d
       /\ F64.ltb d (F64.lit 1 2) = true
       /\ F64.ltb d (F64.lit 1 10) = false.
Proof.
  split; [vm_compute; reflexivity|]. split; [vm_compute; reflexivity|].
  exists (F64.of_ratio false 4222663893647155 (2 ^ 53)).
  vm_compute. repeat split; reflexivity.
Qed.

(** ** Numeric perturbation ([_perturb]) *)

Section Perturbation.

Import Main.

Lemma rng_ok (salt key : pystr) :
  encode (salt ++ bar ++ key) <> None -> exists r, _rng salt key = Ok r.
Proof.
  intro H. destruct (sha_int_ok _ H) as [h [Hh _]].
  unfold _rng. rewrite Hh. cbn [bind]. eauto.
Qed.

Lemma max_nan (floor : F64.float) : F64.max floor S754_nan = floor.
Proof. unfold F64.max, F64.gtb, F64.ltb. now destruct floor. Qed.

Lemma mul_nan (y : F64.float) : F64.mul S754_nan y = S754_nan.
Proof. reflexivity. Qed.


(** A NaN, the missing number of a table, is a number to [float]: it is
    not passed through but clamped, and comes back as the rounded floor. *)
Lemma perturb_nan (salt key : pystr) (low high floor : F64.float) (r : MT.state) :
  _rng salt (u "noise|" ++ key) = Ok r ->
  _perturb (VFloat S754_nan) salt key low high floor = Ok (VFloat (F64.round2 floor)).
Proof.
  intro Hr. unfold _perturb. cbn [py_float]. rewrite Hr. cbn [bind].
  now rewrite mul_nan, max_nan.
Qed.

End Perturbation.


(** [None] and text that is no number come back as they are. *)
Example perturb_passes_non_numbers :
  Main._perturb VNone (u "s1") (u "0|TransactionAmount")
    (F64.lit 6 10) (F64.lit 17 10) (F64.lit 50 1) = Ok VNone
  /\ Main._perturb (VStr (u "n/a")) (u "s1") (u "0|TransactionAmount")
       (F64.lit 6 10) (F64.lit 17 10) (F64.lit 50 1) = Ok (VStr (u "n/a")).
Proof. split; reflexivity. Qed.

